(** * First_Class_Analyzer: a shallow embedding of [first_class_analyzer.py]

    The [Analyzer] class of the repository is embedded as a record together
    with one function per method.  Python strings are lists of characters
    ([list ascii]); the development covers 7-bit ASCII text, on which the
    character predicates and case maps below agree with Python's.  The file
    system and the network are an explicit [World]; exceptions are an error
    result; attribute mutation is explicit state passing; Python floats are
    IEEE binary64 values ([spec_float] with precision 53). *)

From Stdlib Require Import Ascii String.
From Stdlib Require Import List Arith ZArith Lia Bool Sorted Permutation.
From Stdlib Require Import SpecFloat.
Import ListNotations.

Set Implicit Arguments.

(** ** Python strings *)

Module Py.

Definition str := list ascii.

(** String literals of the source. *)
Definition lit (s : string) : str := list_ascii_of_string s.

Definition code (c : ascii) : nat := nat_of_ascii c.

Definition in_range (lo hi : nat) (c : ascii) : bool :=
  (lo <=? code c) && (code c <=? hi).

(** [str.isspace] on one ASCII character: tab, LF, VT, FF, CR, the four
    separators FS, GS, RS, US and the space. *)
Definition isspace (c : ascii) : bool :=
  in_range 9 13 c || in_range 28 32 c.

Definition isupper (c : ascii) : bool := in_range 65 90 c.
Definition islower (c : ascii) : bool := in_range 97 122 c.

(** [str.isalpha] on one ASCII character. *)
Definition isalpha (c : ascii) : bool := isupper c || islower c.

(** Membership in [string.punctuation]. *)
Definition punctuation : str :=
  lit "!" ++ [ascii_of_nat 34] ++ lit "#$%&'()*+,-./:;<=>?@[\]^_`{|}~".

Definition char_in (c : ascii) (s : str) : bool :=
  existsb (Ascii.eqb c) s.

Definition ispunct (c : ascii) : bool := char_in c punctuation.

Definition lower_char (c : ascii) : ascii :=
  if isupper c then ascii_of_nat (code c + 32) else c.

Definition upper_char (c : ascii) : ascii :=
  if islower c then ascii_of_nat (code c - 32) else c.

(** [str.lower] and [str.upper] on ASCII text, where they map letter by
    letter.  Beyond ASCII Python's maps can change the length of a string
    and leave a letter in its case, so what is stated below about the case
    or the length of a mapped string is stated for ASCII text. *)
Definition lower (s : str) : str := map lower_char s.
Definition upper (s : str) : str := map upper_char s.

Fixpoint str_eqb (s t : str) : bool :=
  match s, t with
  | [], [] => true
  | c :: s', d :: t' => Ascii.eqb c d && str_eqb s' t'
  | _, _ => false
  end.

(** [str.startswith]. *)
Fixpoint startswith (s p : str) : bool :=
  match p, s with
  | [], _ => true
  | d :: p', c :: s' => Ascii.eqb c d && startswith s' p'
  | _ :: _, [] => false
  end.

(** [str.endswith]. *)
Definition endswith (s p : str) : bool := startswith (rev s) (rev p).

(** [str.split()] without argument: the maximal runs of non-whitespace
    characters, in order.  [cur] holds the current run, reversed. *)
Fixpoint split_from (cur : str) (s : str) : list str :=
  match s with
  | [] => match cur with [] => [] | _ => [rev cur] end
  | c :: s' =>
      if isspace c then
        match cur with
        | [] => split_from [] s'
        | _ => rev cur :: split_from [] s'
        end
      else split_from (c :: cur) s'
  end.

Definition split (s : str) : list str := split_from [] s.

Fixpoint dropwhile (p : ascii -> bool) (s : str) : str :=
  match s with
  | [] => []
  | c :: s' => if p c then dropwhile p s' else s
  end.

(** A string on which [dropwhile p] has nothing to drop. *)
Definition settled (p : ascii -> bool) (s : str) : Prop :=
  match s with
  | [] => True
  | c :: _ => p c = false
  end.

(** [str.strip(chars)]: characters of [chars] removed from both ends. *)
Definition lstrip (chars s : str) : str :=
  dropwhile (fun c => char_in c chars) s.
Definition rstrip (chars s : str) : str :=
  rev (dropwhile (fun c => char_in c chars) (rev s)).
Definition strip (chars s : str) : str := rstrip chars (lstrip chars s).

(** ** Counting and sorting *)

Section Containers.

Variable A : Type.
Variable eqb : A -> A -> bool.

(** One [counts[x] += 1] on an insertion-ordered dictionary. *)
Fixpoint incr (x : A) (d : list (A * nat)) : list (A * nat) :=
  match d with
  | [] => [(x, 1)]
  | (y, n) :: d' => if eqb x y then (y, S n) :: d' else (y, n) :: incr x d'
  end.

(** [collections.Counter(xs).items()]: the elements are counted from left to
    right, so the keys appear in the order of their first occurrence. *)
Definition Counter (xs : list A) : list (A * nat) :=
  fold_left (fun d x => incr x d) xs [].

(** [x in xs]. *)
Definition contains (x : A) (xs : list A) : bool := existsb (eqb x) xs.

(** The elements of [set(xs)], each once. *)
Fixpoint uniq (xs : list A) : list A :=
  match xs with
  | [] => []
  | x :: xs' => x :: filter (fun y => negb (eqb x y)) (uniq xs')
  end.

(** [len(set(xs))]. *)
Definition len_set (xs : list A) : nat := length (uniq xs).

(** The number of occurrences of [x] in [xs]. *)
Definition occurrences (x : A) (xs : list A) : nat :=
  length (filter (eqb x) xs).

(** The position of the first occurrence of [x] in [xs]. *)
Fixpoint first_index (x : A) (xs : list A) : nat :=
  match xs with
  | [] => 0
  | y :: xs' => if eqb x y then 0 else S (first_index x xs')
  end.

(** The count stored for [x] in a dictionary, [0] when it has no entry. *)
Fixpoint get (x : A) (d : list (A * nat)) : nat :=
  match d with
  | [] => 0
  | (y, n) :: d' => if eqb x y then n else get x d'
  end.

Variable K : Type.
Variable ltb : K -> K -> bool.
Variable key : A -> K.

(** [sorted(xs, key=key, reverse=True)].  Python's sort is stable, also
    with [reverse=True]: the result is in descending order of key and
    elements whose keys compare equal keep their order in [xs].  That result
    is unique; it is computed here by insertion from the right, an element
    moving only behind the elements of strictly larger key. *)
Fixpoint insert_rev (x : A) (l : list A) : list A :=
  match l with
  | [] => [x]
  | y :: l' => if ltb (key x) (key y) then y :: insert_rev x l' else x :: l
  end.

Definition sorted_rev (xs : list A) : list A := fold_right insert_rev [] xs.

End Containers.

(** [x] occurs before [y] in [l]. *)
Definition before (A : Type) (x y : A) (l : list A) : Prop :=
  exists l1 l2 l3, l = l1 ++ x :: l2 ++ y :: l3.

(** Descending order of keys. *)
Definition descending (A : Type) (key : A -> nat) (l : list A) : Prop :=
  StronglySorted (fun x y => key y <= key x) l.

(** [Counter.most_common(n)] for an integer [n]: the [n] first entries of
    the entries sorted by descending count, none when [n <= 0]. *)
Definition most_common (A : Type) (n : Z) (d : list (A * nat)) : list (A * nat) :=
  firstn (Z.to_nat n) (sorted_rev Nat.ltb snd d).

(** Comparison of lists of integers, as Python compares lists. *)
Fixpoint list_ltb (l1 l2 : list nat) : bool :=
  match l1, l2 with
  | [], [] => false
  | [], _ :: _ => true
  | _ :: _, [] => false
  | x :: l1', y :: l2' => (x <? y) || ((x =? y) && list_ltb l1' l2')
  end.

(** ** Floats *)

Definition float := spec_float.
Definition prec : Z := 53.
Definition emax : Z := 1024.

(** An integer as an exact binary fraction, before any rounding. *)
Definition exact_int (z : Z) : float :=
  match z with
  | Z0 => S754_zero false
  | Zpos p => S754_finite false p 0
  | Zneg p => S754_finite true p 0
  end.

(** [float(z)]. *)
Definition float_of_int (z : Z) : float := binary_normalize prec emax z 0 false.

(** [a / b] on integers with [b] not zero: the double nearest to the
    quotient. *)
Definition truediv (a b : Z) : float := SFdiv prec emax (exact_int a) (exact_int b).

(** [x * n] for a float [x] and an integer [n]. *)
Definition fmul_int (x : float) (n : Z) : float := SFmul prec emax x (float_of_int n).

(** The integer nearest to [n / d] for [0 <= n] and [0 < d], ties to even. *)
Definition round_half_even (n d : Z) : Z :=
  let q := (n / d)%Z in
  match (2 * (n mod d) ?= d)%Z with
  | Lt => q
  | Gt => (q + 1)%Z
  | Eq => if Z.even q then q else (q + 1)%Z
  end.

(** [round(x, 2)] on a float: the exact value of [x] is rounded to the
    nearest multiple of 1/100, ties to even, and the double nearest to that
    decimal is returned. *)
Definition round2 (x : float) : float :=
  match x with
  | S754_finite s m e =>
      let k :=
        if (0 <=? e)%Z then (Zpos m * 2 ^ e * 100)%Z
        else round_half_even (Zpos m * 100) (2 ^ (- e)) in
      match k with
      | Zpos p => SFdiv prec emax (S754_finite s p 0) (S754_finite false 100 0)
      | _ => S754_zero s
      end
  | _ => x
  end.

End Py.

Import Py.

(** ** Exceptions, the outside world, and the state of an [Analyzer] *)

Inductive exn : Type :=
| ValueError
| TypeError
| AttributeError
| OSError
| RequestException
| UnicodeDecodeError.

Inductive result (A : Type) : Type :=
| Ok (a : A)
| Raise (e : exn).

Arguments Ok {A} a.
Arguments Raise {A} e.

(** How reading a file fails: [open] raises (a missing file, a path that
    is no path), or the file is opened and [read] raises (a content that is
    no UTF-8). *)
Inductive failure : Type :=
| AtOpen (e : exn)
| AtRead (e : exn).

Definition raised (f : failure) : exn :=
  match f with
  | AtOpen e => e
  | AtRead e => e
  end.

(** What [open(path).read()] and [requests.get(url).text] give.  Where
    [files] is [None] the file cannot be read, and [unreadable] tells how
    and with which exception; where [web] is [None] the request fails, with
    the exception [unreachable]. *)
Record World : Type := {
  files : str -> option str;
  web : str -> option str;
  unreadable : str -> failure;
  unreachable : str -> exn
}.

(** The attributes of an [Analyzer] instance. *)
Record Analyzer : Type := {
  src : str;
  src_type : str;
  _src_type : str;
  _content : option str;
  _orig_content : str;
  text : str
}.

(** A Python number: [positivity] returns the integer [0] or a float. *)
Inductive number : Type :=
| PyInt (z : Z)
| PyFloat (f : float).

(** Methods that assign attributes are state transformers that may raise. *)
Definition M (A : Type) : Type := Analyzer -> result (A * Analyzer).

Definition ret {A} (x : A) : M A := fun a => Ok (x, a).

Definition bind {A B} (m : M A) (k : A -> M B) : M B :=
  fun a => match m a with
           | Ok (x, a') => k x a'
           | Raise e => Raise e
           end.

Definition raise {A} (e : exn) : M A := fun _ => Raise e.

Definition lift {A} (r : result A) : M A :=
  fun a => match r with Ok x => Ok (x, a) | Raise e => Raise e end.

Definition self : M Analyzer := fun a => Ok (a, a).

(** The instance after the assignment [self._content = c]. *)
Definition with_content (c : option str) (a : Analyzer) : Analyzer :=
  {| src := src a; src_type := src_type a; _src_type := _src_type a;
     _content := c; _orig_content := _orig_content a; text := text a |}.

Definition set_content (c : option str) : M unit :=
  fun a => Ok (tt, with_content c a).

Declare Scope py_scope.
Delimit Scope py_scope with py.
Notation "x <- m ;; k" := (bind m (fun x => k))
  (at level 61, m at next level, right associativity) : py_scope.
Notation "m ;; k" := (bind m (fun _ => k))
  (at level 61, right associativity) : py_scope.
Notation "s == t" := (str_eqb s (lit t)) (at level 70, no associativity) : py_scope.
Open Scope py_scope.

(** ** The class [Analyzer] *)

Definition _fetch_from_url (w : World) (url : str) : result str :=
  match web w url with
  | Some body => Ok body
  | None => Raise (unreachable w url)
  end.

(** [open(file_path, 'r', encoding='utf-8')] alone. *)
Definition open_file (w : World) (file_path : str) : result unit :=
  match files w file_path with
  | Some _ => Ok tt
  | None =>
      match unreadable w file_path with
      | AtOpen e => Raise e
      | AtRead _ => Ok tt
      end
  end.

(** [file.read()] on a file that has been opened. *)
Definition read_file (w : World) (file_path : str) : result str :=
  match files w file_path with
  | Some body => Ok body
  | None => Raise (raised (unreadable w file_path))
  end.

Definition _read_from_file (w : World) (file_path : str) : result str :=
  match open_file w file_path with
  | Ok _ => read_file w file_path
  | Raise e => Raise e
  end.

(** The first block of [__init__]: the effective source type. *)
Definition resolve (src src_type : str) : str :=
  if src_type == "discover" then
    if startswith src (lit "http") then lit "url"
    else if endswith src (lit ".txt") || char_in "/" src || char_in "\" src
         then lit "path"
    else lit "text"
  else src_type.

Definition __init__ (w : World) (src : str) (orig_content : option str)
    (src_type : str) : result Analyzer :=
  let kind := resolve src src_type in
  let fetched :=
    if kind == "url" then _fetch_from_url w src
    else if kind == "path" then _read_from_file w src
    else if kind == "text" then Ok src
    else Raise ValueError in
  match fetched with
  | Ok content =>
      Ok {| src := src; src_type := src_type; _src_type := kind;
            _content := Some content; _orig_content := content;
            text := lit "text" |}
  | Raise e => Raise e
  end.

(** [set_content_to_tag] reads the attribute [_original_content], which no
    instance has. *)
Definition set_content_to_tag (tag tag_id : str) : M unit :=
  raise AttributeError.

Definition reset_content : M (option str) :=
  a <- self ;;
  set_content (Some (_orig_content a)) ;;
  ret (Some (_orig_content a)).

Definition _words (casesensitive : bool) (a : Analyzer) : option (list str) :=
  match _content a with
  | None => None
  | Some _ =>
      let words := split (_orig_content a) in
      if negb casesensitive
      then Some (map (fun word => lower (strip punctuation word)) words)
      else Some (map (fun word => strip punctuation word) words)
  end.

Definition len (s : str) : Z := Z.of_nat (length s).

(** The body shared by the two branches of [common_words]. *)
Definition common_words_of (minlen maxlen count : Z) (a : Analyzer)
  : result (option (list (str * nat))) :=
  match _words false a with
  | None => Raise TypeError
  | Some words =>
      let filtered_words :=
        filter (fun word => (minlen <=? len word)%Z && (len word <=? maxlen)%Z) words in
      let word_counts := Counter str_eqb filtered_words in
      let most_common_words := most_common count word_counts in
      Ok (Some (map (fun '(word, freq) => (upper word, freq)) most_common_words))
  end.

Definition common_words (minlen maxlen count : Z) (casesensitive : bool)
    (a : Analyzer) : result (option (list (str * nat))) :=
  if _src_type a == "text" then common_words_of minlen maxlen count a
  else if _src_type a == "path" then common_words_of minlen maxlen count a
  else Ok None.

Definition char_distribution (w : World) (casesensitive letters_only : bool)
    (a : Analyzer) : result (option (list (ascii * nat))) :=
  if _src_type a == "text" then
    let content := if casesensitive then _orig_content a else lower (_orig_content a) in
    let char_counts :=
      Counter Ascii.eqb (filter (fun char => negb letters_only || isalpha char) content) in
    Ok (Some (sorted_rev Nat.ltb (fun item => snd item) char_counts))
  else if _src_type a == "path" then
    match _read_from_file w (src a) with
    | Ok content =>
        let content := if casesensitive then content else lower content in
        let char_counts :=
          Counter Ascii.eqb (filter (fun char => letters_only || isalpha char) content) in
        Ok (Some (sorted_rev list_ltb (fun item => [1]) char_counts))
    | Raise e => Raise e
    end
  else Ok None.

(** [round(sum(len(word) for word in words) / len(words), 2)]. *)
Definition mean_length (words : list str) : float :=
  round2 (truediv (fold_right Z.add 0%Z (map len words)) (Z.of_nat (length words))).

Definition avg_word_length : M float :=
  a <- self ;;
  (if _src_type a == "text" then set_content (Some (_orig_content a)) else ret tt) ;;
  a1 <- self ;;
  match (if _src_type a == "text" then _words false a1 else None) with
  | Some (word :: words) => ret (mean_length (word :: words))
  | _ =>
      match (if _src_type a == "path" then _words false a1 else None) with
      | Some (word :: words) => ret (mean_length (word :: words))
      | _ => ret (S754_zero false)
      end
  end.

(** [len(self._words())]. *)
Definition len_words (a : Analyzer) : result (option nat) :=
  match _words false a with
  | Some words => Ok (Some (length words))
  | None => Raise TypeError
  end.

Definition word_count (w : World) : M (option nat) :=
  a <- self ;;
  if _src_type a == "text" then
    set_content (Some (_orig_content a)) ;;
    a1 <- self ;; lift (len_words a1)
  else if _src_type a == "path" then
    content <- lift (_read_from_file w (src a)) ;;
    set_content (Some content) ;;
    a1 <- self ;; lift (len_words a1)
  else if _src_type a == "url" then
    content <- lift (_fetch_from_url w (src a)) ;;
    set_content (Some content) ;;
    a1 <- self ;; lift (len_words a1)
  else ret None.

Definition distinct_word_count (a : Analyzer) : result (option nat) :=
  if (_src_type a == "text") || (_src_type a == "path") then
    match _words false a with
    | Some words => Ok (Some (len_set str_eqb words))
    | None => Raise TypeError
    end
  else Ok None.

(** One summand of the tally of [positivity]. *)
Definition contribution (positive_words negative_words : list str) (word : str) : Z :=
  if contains str_eqb word positive_words then 1%Z
  else if contains str_eqb word negative_words then (-1)%Z
  else 0%Z.

Definition positivity (w : World) : M number :=
  lift (open_file w (lit "fca/positive.txt")) ;;
  lift (open_file w (lit "fca/negative.txt")) ;;
  pos_file <- lift (read_file w (lit "fca/positive.txt")) ;;
  neg_file <- lift (read_file w (lit "fca/negative.txt")) ;;
  let positive_words := split (lower pos_file) in
  let negative_words := split (lower neg_file) in
  a <- self ;;
  match _words false a with
  | None => raise TypeError
  | Some words0 =>
      let words := map (fun word => lower (strip punctuation word)) words0 in
      let tally :=
        fold_right Z.add 0%Z (map (contribution positive_words negative_words) words) in
      wc <- word_count w ;;
      match wc with
      | None => raise TypeError
      | Some word_count =>
          if (0 <? Z.of_nat word_count)%Z
          then ret (PyFloat (fmul_int (truediv tally (Z.of_nat word_count)) 1000))
          else ret (PyInt 0)
      end
  end.

(** ** Vocabulary of the specification *)

(** The token sequence of a content: the whitespace-delimited fragments,
    each stripped of punctuation at both ends and folded to lowercase. *)
Definition tokens (content : str) : list str :=
  map (fun word => lower (strip punctuation word)) (split content).

(** The entries of a returned table; [None] holds none. *)
Definition entries {A} (r : option (list A)) : list A :=
  match r with
  | Some l => l
  | None => []
  end.

(** A file system and a network for the examples. *)
Definition example_world : World := {|
  files := fun p =>
    if p == "abb.txt" then Some (lit "abb")
    else if p == "a1.txt" then Some (lit "a1")
    else if p == "fca/positive.txt" then Some (lit "good fine")
    else if p == "fca/negative.txt" then Some (lit "bad poor")
    else None;
  web := fun u =>
    if u == "http://example.org" then Some (lit "Good day, bad luck") else None;
  unreadable := fun _ => AtOpen OSError;
  unreachable := fun _ => RequestException
|}.

(** The instance [Analyzer(src, src_type='text')] holds after construction. *)
Definition inline (content : str) : Analyzer :=
  {| src := content; src_type := lit "text"; _src_type := lit "text";
     _content := Some content; _orig_content := content; text := lit "text" |}.

Definition casey : Analyzer := inline (lit "Casey hit the ball. Casey ran.").

(** The instance [Analyzer(path, src_type='path')] holds after construction
    over a file of the given content. *)
Definition from_file (path content : str) : Analyzer :=
  {| src := path; src_type := lit "path"; _src_type := lit "path";
     _content := Some content; _orig_content := content; text := lit "text" |}.

(** The instance [Analyzer(url, src_type='url')] holds after construction
    over a page of the given content. *)
Definition from_url (url content : str) : Analyzer :=
  {| src := url; src_type := lit "url"; _src_type := lit "url";
     _content := Some content; _orig_content := content; text := lit "text" |}.

(** The same instance when its type was declared as [discover]. *)
Definition discovered (a : Analyzer) : Analyzer :=
  {| src := src a; src_type := lit "discover"; _src_type := _src_type a;
     _content := _content a; _orig_content := _orig_content a; text := text a |}.

Definition example_page : Analyzer :=
  from_url (lit "http://example.org") (lit "Good day, bad luck").

(** The character stream counted by the inline-text branch of
    [char_distribution]. *)
Definition characters (content : str) (casesensitive letters_only : bool) : str :=
  filter (fun char => negb letters_only || isalpha char)
         (if casesensitive then content else lower content).

(** A call of [reset_content] followed by the operation [op]. *)
Definition after_reset {B} (op : Analyzer -> result B) : Analyzer -> result B :=
  fun a => match reset_content a with
           | Ok (_, a') => op a'
           | Raise e => Raise e
           end.

(** The words of a lexicon file. *)
Definition lexicon (file : str) : list str := split (lower file).

(** The number of tokens found in a lexicon. *)
Definition hits (lex toks : list str) : Z :=
  Z.of_nat (length (filter (fun word => contains str_eqb word lex) toks)).

(** [v == 0] on a Python number. *)
Definition eq_zero (v : number) : bool :=
  match v with
  | PyInt z => (z =? 0)%Z
  | PyFloat f => SFeqb f (S754_zero false)
  end.

(** ** The rest of the class *)

(** [str.isdigit] on one character. *)
Definition isdigit (c : ascii) : bool := in_range 48 57 c.

(** The class [\w] of the regular expressions on one character: letters,
    digits and the underscore. *)
Definition isword (c : ascii) : bool := isalpha c || isdigit c || Ascii.eqb c "_".

(** The maximal runs of characters that are no separators, in order; [cur]
    holds the current run, reversed. *)
Fixpoint runs_from (sep : ascii -> bool) (cur : str) (s : str) : list str :=
  match s with
  | [] => match cur with [] => [] | _ => [rev cur] end
  | c :: s' =>
      if sep c then
        match cur with
        | [] => runs_from sep [] s'
        | _ => rev cur :: runs_from sep [] s'
        end
      else runs_from sep (c :: cur) s'
  end.

(** [re.findall(r'\b\w+\b', s)]: a match starts at a word boundary, takes
    word characters greedily and ends at a word boundary, and the search
    goes on behind it, so the matches are the maximal runs of word
    characters. *)
Definition findall_words (s : str) : list str :=
  runs_from (fun c => negb (isword c)) [] s.

Definition _distinct_word_count (casesensitive : bool) (a : Analyzer) : result nat :=
  match _content a with
  | None => Raise TypeError
  | Some content =>
      let words := findall_words content in
      let words := if negb casesensitive then map lower words else words in
      Ok (len_set str_eqb words)
  end.

(** What the property [words] returns: the list of the words for inline
    text, a number for a file. *)
Inductive words_value : Type :=
| WordList (l : list str)
| WordNumber (n : nat).

Definition words (w : World) : M (option words_value) :=
  a <- self ;;
  if _src_type a == "text" then
    set_content (Some (_orig_content a)) ;;
    a1 <- self ;;
    ret (option_map WordList (_words false a1))
  else if _src_type a == "path" then
    content <- lift (_read_from_file w (src a)) ;;
    set_content (Some content) ;;
    a1 <- self ;;
    match _words false a1 with
    | Some l => ret (Some (WordNumber (len_set str_eqb l)))
    | None => raise TypeError
    end
  else ret None.

(** What a plotting method shows: a bar chart with its labels, values,
    axis labels and title, or a printed line. *)
Inductive output : Type :=
| Bar (labels : list str) (values : list nat) (xlabel ylabel title : str)
| Print (line : str).

Definition plot_common_words (minlen maxlen count : Z) (casesensitive : bool)
    (a : Analyzer) : result output :=
  match common_words minlen maxlen count false a with
  | Raise e => Raise e
  | Ok (Some (item :: items)) =>
      Ok (Bar (map fst (item :: items)) (map snd (item :: items))
              (lit "Words") (lit "Count") (lit "Most Common Words"))
  | Ok _ => Ok (Print (lit "No content available to plot."))
  end.


(** The value of a call, without the instance it leaves. *)
Definition value {A} (r : result (A * Analyzer)) : result A :=
  match r with
  | Ok (x, _) => Ok x
  | Raise e => Raise e
  end.

(** The sum of the counts of a table. *)
Definition total {A} (l : list (A * nat)) : nat :=
  fold_right Nat.add 0 (map snd l).

(** The tokens that [common_words] counts. *)
Definition in_range_tokens (minlen maxlen : Z) (content : str) : list str :=
  filter (fun word => (minlen <=? len word)%Z && (len word <=? maxlen)%Z)
         (tokens content).

(** The character stream counted by the file branch of [char_distribution]. *)
Definition file_characters (content : str) (casesensitive letters_only : bool) : str :=
  filter (fun char => letters_only || isalpha char)
         (if casesensitive then content else lower content).

(** ** The analysis script *)

(** The number of words used only once: the entries of count 1 in
    [Counter(analyzer._words(casesensitive=False))]. *)
Definition num_words_used_once (a : Analyzer) : result nat :=
  match _words false a with
  | None => Raise TypeError
  | Some word_count =>
      let word_counts := Counter str_eqb word_count in
      let words_used_once := filter (fun '(word, count) => count =? 1) word_counts in
      Ok (length words_used_once)
  end.

(** [re.sub(r'[^\w\s]', ' ', text)]: every character that is neither a word
    character nor whitespace becomes a space. *)
Definition sub_punctuation (text : str) : str :=
  map (fun c => if negb (isword c || isspace c) then " "%char else c) text.

(** The condition [len(word) < 5 and 'A' in word]. *)
Definition short_with_A (word : str) : bool :=
  (len word <? 5)%Z && char_in "A" word.

(** The number of distinct words of fewer than five characters with a
    capital A, in a text read from a file. *)
Definition num_distinct_words (text : str) : nat :=
  let text := sub_punctuation text in
  let words := findall_words text in
  len_set str_eqb (filter short_with_A words).

(** Text of the 7-bit ASCII alphabet, on which [lower], [upper] and the
    character classes above are those of Python. *)
Definition ascii_text (s : str) : Prop := Forall (fun c => code c < 128) s.

(** A token that is not the empty string. *)
Definition nonempty (t : str) : bool :=
  match t with
  | [] => false
  | _ :: _ => true
  end.

(** The file can be opened, whether or not it can be read then. *)
Definition opens (w : World) (file_path : str) : Prop :=
  files w file_path <> None \/ exists e, unreadable w file_path = AtRead e.

(** A world in which the positive word list is no UTF-8 and everything else
    is missing. *)
Definition broken_lists : World := {|
  files := fun _ => None;
  web := fun _ => None;
  unreadable := fun p =>
    if p == "fca/positive.txt" then AtRead UnicodeDecodeError else AtOpen OSError;
  unreachable := fun _ => RequestException
|}.

(** * Facts about the Python primitives *)

(** Comparisons of two literals are evaluated. *)
Ltac kind_eval :=
  repeat match goal with
  | |- context [str_eqb (lit ?x) (lit ?y)] =>
      let b := eval vm_compute in (str_eqb (lit x) (lit y)) in
      change (str_eqb (lit x) (lit y)) with b
  end.

(** Projections of a record that is written out are reduced. *)
Ltac fields := cbn [src src_type _src_type _content _orig_content text negb].

(** Opening and reading a file gives what the world holds for it, or
    raises what the failing step raises. *)
Lemma read_from_file_eq w p : _read_from_file w p = read_file w p.
Proof.
  unfold _read_from_file, open_file, read_file.
  destruct (files w p); [reflexivity|]. now destruct (unreadable w p).
Qed.

Lemma str_eqb_spec (s t : str) : reflect (s = t) (str_eqb s t).
Proof.
  revert t; induction s as [|c s IH]; intros [|d t]; simpl;
    try (constructor; congruence).
  destruct (Ascii.eqb_spec c d) as [->|Hcd]; simpl.
  - destruct (IH t) as [->|Hst]; constructor; congruence.
  - constructor; congruence.
Qed.

Lemma str_eqb_eq (s t : str) : str_eqb s t = true <-> s = t.
Proof. destruct (str_eqb_spec s t); split; congruence. Qed.

Lemma str_eqb_refl (s : str) : str_eqb s s = true.
Proof. now apply str_eqb_eq. Qed.

Lemma before_cons {A} (x y u : A) (l : list A) :
  before x y l -> before x y (u :: l).
Proof. intros (l1 & l2 & l3 & ->). now exists (u :: l1), l2, l3. Qed.

Lemma before_head {A} (x y : A) (l : list A) : In y l -> before x y (x :: l).
Proof.
  intros H. apply in_split in H. destruct H as (k1 & k2 & ->).
  now exists [], k1, k2.
Qed.

Lemma before_filter_inv {A} (p : A -> bool) (x y : A) (l : list A) :
  before x y (filter p l) -> before x y l.
Proof.
  induction l as [|u l IH]; simpl; intros H.
  - destruct H as (l1 & l2 & l3 & H). destruct l1; discriminate.
  - destruct (p u); [|now apply before_cons, IH].
    destruct H as (l1 & l2 & l3 & H). destruct l1 as [|v l1]; simpl in H.
    + injection H as -> H. apply before_head.
      assert (Hy : In y (filter p l)) by (rewrite H; apply in_elt).
      now apply filter_In in Hy.
    + injection H as -> H. apply before_cons, IH. now exists l1, l2, l3.
Qed.

Lemma before_filter {A} (p : A -> bool) (x y : A) (l : list A) :
  p x = true -> p y = true -> before x y l -> before x y (filter p l).
Proof.
  intros Hx Hy (l1 & l2 & l3 & ->).
  rewrite filter_app. simpl. rewrite Hx, filter_app. simpl. rewrite Hy.
  now eexists _, _, _.
Qed.

Lemma before_map {A B} (f : A -> B) (x y : A) (l : list A) :
  before x y l -> before (f x) (f y) (map f l).
Proof.
  intros (l1 & l2 & l3 & ->). rewrite map_app. simpl. rewrite map_app. simpl.
  now eexists _, _, _.
Qed.

Section ContainerFacts.

Variable A : Type.
Variable eqb : A -> A -> bool.
Hypothesis eqb_spec : forall x y, reflect (x = y) (eqb x y).

Local Abbreviation contains := (contains eqb).
Local Abbreviation uniq := (uniq eqb).
Local Abbreviation incr := (incr eqb).
Local Abbreviation Counter := (Counter eqb).
Local Abbreviation occurrences := (occurrences eqb).
Local Abbreviation first_index := (first_index eqb).
Local Abbreviation get := (get eqb).

Lemma eqb_refl x : eqb x x = true.
Proof. destruct (eqb_spec x x); congruence. Qed.

Lemma eqb_sym x y : eqb x y = eqb y x.
Proof. destruct (eqb_spec x y), (eqb_spec y x); congruence. Qed.

Lemma contains_In x xs : contains x xs = true <-> In x xs.
Proof.
  unfold Py.contains. rewrite existsb_exists. split.
  - intros (y & Hy & He). destruct (eqb_spec x y); congruence.
  - intros H. exists x. split; [assumption | apply eqb_refl].
Qed.

Lemma contains_app x xs ys : contains x (xs ++ ys) = contains x xs || contains x ys.
Proof. apply existsb_app. Qed.

Lemma filter_filter_absorb (p q : A -> bool) (l : list A) :
  (forall y, p y = true -> q y = true) -> filter p (filter q l) = filter p l.
Proof.
  intros H. induction l as [|y l IH]; simpl; [reflexivity|].
  destruct (q y) eqn:Hq; simpl.
  - now rewrite IH.
  - destruct (p y) eqn:Hp; [|assumption].
    apply H in Hp. congruence.
Qed.

Lemma filter_filter_and (p q : A -> bool) (l : list A) :
  filter p (filter q l) = filter (fun y => q y && p y) l.
Proof.
  induction l as [|y l IH]; simpl; [reflexivity|].
  destruct (q y); simpl; [destruct (p y)|]; now rewrite IH.
Qed.

Lemma keys_incr x d :
  map fst (incr x d) =
  if contains x (map fst d) then map fst d else map fst d ++ [x].
Proof.
  induction d as [|[y n] d IH]; simpl; [reflexivity|].
  destruct (eqb x y); simpl; [reflexivity|].
  rewrite IH. now destruct (Py.contains eqb x (map fst d)).
Qed.

Lemma keys_fold xs d :
  map fst (fold_left (fun d x => incr x d) xs d) =
  map fst d ++ filter (fun y => negb (contains y (map fst d))) (uniq xs).
Proof.
  revert d; induction xs as [|x xs IH]; intros d; simpl.
  - now rewrite app_nil_r.
  - rewrite IH, keys_incr.
    destruct (Py.contains eqb x (map fst d)) eqn:Hx; simpl.
    + f_equal. symmetry. apply filter_filter_absorb.
      intros y Hy. destruct (eqb_spec x y) as [->|]; [|reflexivity].
      rewrite Hx in Hy. discriminate.
    + rewrite <- app_assoc. simpl. do 2 f_equal.
      rewrite filter_filter_and. apply filter_ext.
      intros y. rewrite contains_app. simpl.
      rewrite orb_false_r, (eqb_sym y x).
      now rewrite negb_orb, andb_comm.
Qed.

(** The keys of a counter are the elements in the order of their first
    occurrence. *)
Lemma keys_Counter xs : map fst (Counter xs) = uniq xs.
Proof.
  unfold Py.Counter. rewrite keys_fold. simpl.
  induction (Py.uniq eqb xs) as [|y l IH]; simpl; congruence.
Qed.

Lemma In_uniq x xs : In x (uniq xs) <-> In x xs.
Proof.
  induction xs as [|y xs IH]; simpl; [tauto|].
  rewrite filter_In, IH. split.
  - tauto.
  - intros [->|H]; [now left|].
    destruct (eqb_spec y x) as [->|Hne]; [now left|right; now split].
Qed.

Lemma NoDup_uniq xs : NoDup (uniq xs).
Proof.
  induction xs as [|y xs IH]; simpl; constructor.
  - rewrite filter_In. intros [_ H]. now rewrite eqb_refl in H.
  - now apply NoDup_filter.
Qed.

Lemma length_uniq_le xs : length (uniq xs) <= length xs.
Proof.
  induction xs as [|y xs IH]; simpl; [lia|].
  pose proof (filter_length_le (fun z => negb (eqb y z)) (Py.uniq eqb xs)). lia.
Qed.

Lemma get_incr x y d :
  get y (incr x d) = if eqb y x then S (get y d) else get y d.
Proof.
  induction d as [|[z n] d IH]; simpl.
  - now destruct (eqb y x).
  - destruct (eqb_spec x z) as [->|Hxz]; simpl.
    + now destruct (eqb y z).
    + destruct (eqb_spec y z) as [->|Hyz].
      * destruct (eqb_spec z x); congruence.
      * apply IH.
Qed.

Lemma get_fold y xs d :
  get y (fold_left (fun d x => incr x d) xs d) = get y d + occurrences y xs.
Proof.
  revert d; induction xs as [|x xs IH]; intros d; unfold occurrences; simpl.
  - lia.
  - rewrite IH, get_incr. unfold occurrences.
    destruct (eqb y x); simpl; lia.
Qed.

Lemma get_In x n d : NoDup (map fst d) -> In (x, n) d -> get x d = n.
Proof.
  induction d as [|[y m] d IH]; simpl; [tauto|].
  intros Hnd [Heq|Hin].
  - inversion Heq; subst. now rewrite eqb_refl.
  - inversion Hnd; subst.
    destruct (eqb_spec x y) as [->|Hne]; [|now apply IH].
    exfalso. apply H1. change y with (fst (y, n)). now apply in_map.
Qed.

(** Every entry of a counter holds the number of occurrences of its key,
    which is positive. *)
Lemma Counter_count x n xs :
  In (x, n) (Counter xs) -> n = occurrences x xs /\ In x xs.
Proof.
  intros Hin. split.
  - rewrite <- (get_In x n (Counter xs)); [|now rewrite keys_Counter; apply NoDup_uniq|assumption].
    unfold Py.Counter. now rewrite get_fold.
  - apply In_uniq. rewrite <- keys_Counter.
    change x with (fst (x, n)). now apply in_map.
Qed.

Lemma first_index_lt_uniq x y xs :
  before x y (uniq xs) -> first_index x xs < first_index y xs.
Proof.
  induction xs as [|z xs IH]; simpl.
  - intros (l1 & l2 & l3 & H). destruct l1; discriminate.
  - intros (l1 & l2 & l3 & H). destruct l1 as [|z' l1]; simpl in H.
    + injection H as -> H. rewrite eqb_refl.
      assert (Hy : In y (filter (fun y0 => negb (eqb x y0)) (Py.uniq eqb xs))).
      { rewrite H. apply in_or_app. right. now left. }
      apply filter_In in Hy. destruct Hy as [_ Hy].
      rewrite (eqb_sym y x). destruct (eqb x y); [discriminate|lia].
    + injection H as <- H.
      assert (Hx : In x (filter (fun y0 => negb (eqb z y0)) (Py.uniq eqb xs))).
      { rewrite H. apply in_or_app. right. now left. }
      assert (Hy : In y (filter (fun y0 => negb (eqb z y0)) (Py.uniq eqb xs))).
      { rewrite H. apply in_or_app. right. right. apply in_or_app. right. now left. }
      apply filter_In in Hx, Hy.
      rewrite (eqb_sym x z), (eqb_sym y z).
      destruct Hx as [_ Hx], Hy as [_ Hy].
      destruct (eqb z x); [discriminate|]. destruct (eqb z y); [discriminate|].
      apply -> Nat.succ_lt_mono. apply IH.
      apply before_filter_inv with (p := fun y0 => negb (eqb z y0)).
      now exists l1, l2, l3.
Qed.

End ContainerFacts.

Section SortFacts.

Variable A : Type.
Variable key : A -> nat.

Local Abbreviation insert := (insert_rev Nat.ltb key).
Local Abbreviation sort := (sorted_rev Nat.ltb key).
Local Abbreviation descending := (descending key).

Lemma insert_perm x l : Permutation (insert x l) (x :: l).
Proof.
  induction l as [|y l IH]; simpl; [reflexivity|].
  destruct (key x <? key y); [|reflexivity].
  rewrite IH. apply perm_swap.
Qed.

Lemma sort_perm l : Permutation (sort l) l.
Proof.
  induction l as [|x l IH]; simpl; [reflexivity|].
  rewrite insert_perm. now constructor.
Qed.

Lemma insert_descending x l : descending l -> descending (insert x l).
Proof.
  unfold descending. induction l as [|y l IH]; simpl; intros Hs.
  - repeat constructor.
  - inversion Hs as [|? ? Hl Hy]; subst.
    destruct (Nat.ltb_spec (key x) (key y)) as [Hlt|Hge].
    + constructor; [now apply IH|].
      rewrite Forall_forall. intros z Hz.
      apply (Permutation_in _ (insert_perm x l)) in Hz.
      destruct Hz as [<-|Hz]; [lia|].
      rewrite Forall_forall in Hy. now apply Hy.
    + constructor; [assumption|].
      constructor; [assumption|].
      rewrite Forall_forall in Hy |- *. intros z Hz.
      specialize (Hy z Hz). lia.
Qed.

Lemma sort_descending l : descending (sort l).
Proof.
  induction l as [|x l IH]; simpl; [constructor|].
  now apply insert_descending.
Qed.

(** Stability: the elements of any one key keep their order. *)
Lemma insert_stable n x l :
  filter (fun z => key z =? n) (insert x l) = filter (fun z => key z =? n) (x :: l).
Proof.
  induction l as [|y l IH]; [reflexivity|].
  cbn [insert_rev]. destruct (Nat.ltb_spec (key x) (key y)) as [Hlt|Hge]; [|reflexivity].
  cbn [filter] in *. rewrite IH.
  destruct (Nat.eqb_spec (key x) n), (Nat.eqb_spec (key y) n); try reflexivity; lia.
Qed.

Lemma sort_stable n l :
  filter (fun z => key z =? n) (sort l) = filter (fun z => key z =? n) l.
Proof.
  induction l as [|x l IH]; [reflexivity|].
  cbn [sorted_rev fold_right]. rewrite insert_stable. cbn [filter].
  fold (sort l). now rewrite IH.
Qed.


Lemma descending_firstn n l : descending l -> descending (firstn n l).
Proof.
  unfold descending. revert n. induction l as [|x l IH]; intros [|n] Hs; simpl;
    try constructor.
  - inversion Hs; subst. now apply IH.
  - inversion Hs as [|? ? _ Hall]; subst.
    rewrite Forall_forall in Hall |- *. intros z Hz.
    apply Hall. rewrite <- (firstn_skipn n l). apply in_or_app. now left.
Qed.

(** Elements of equal key appear in the result in their order in the input. *)
Lemma sort_ties x y l :
  key x = key y -> before x y (sort l) -> before x y l.
Proof.
  intros Hk Hb.
  apply before_filter_inv with (p := fun z => key z =? key x).
  rewrite <- sort_stable. apply before_filter; [apply Nat.eqb_refl| |assumption].
  rewrite Hk. apply Nat.eqb_refl.
Qed.

End SortFacts.

(** A key on which no two elements compare smaller leaves the order as it is. *)
Lemma sorted_rev_constant {A K} (ltb : K -> K -> bool) (k : K) (l : list A) :
  ltb k k = false -> sorted_rev ltb (fun _ => k) l = l.
Proof.
  intros Hk. induction l as [|x l IH]; simpl; [reflexivity|].
  fold (sorted_rev ltb (fun _ : A => k) l). rewrite IH.
  destruct l; simpl; [reflexivity|]. now rewrite Hk.
Qed.

(** ** Strings *)

Lemma length_lower s : length (lower s) = length s.
Proof. apply length_map. Qed.

Lemma length_upper s : length (upper s) = length s.
Proof. apply length_map. Qed.

Lemma len_upper s : len (upper s) = len s.
Proof. unfold len. now rewrite length_upper. Qed.

Lemma descending_map_fst {A B} (g : A -> B) (l : list (A * nat)) :
  descending snd l -> descending snd (map (fun '(x, n) => (g x, n)) l).
Proof.
  unfold descending. induction 1 as [|[x n] l Hl IH Hall]; simpl; constructor.
  - assumption.
  - rewrite Forall_forall in Hall |- *. intros [y m] Hy.
    apply in_map_iff in Hy. destruct Hy as ([y' m'] & Heq & Hy).
    injection Heq as <- <-. apply (Hall _ Hy).
Qed.

(** ** The state of a constructed [Analyzer] *)

Lemma init_inv w s oc st a :
  __init__ w s oc st = Ok a ->
  src a = s /\ src_type a = st /\ _src_type a = resolve s st /\
  _content a = Some (_orig_content a) /\
  ((_src_type a = lit "text" /\ _orig_content a = s) \/
   (_src_type a = lit "path" /\ files w s = Some (_orig_content a)) \/
   (_src_type a = lit "url" /\ web w s = Some (_orig_content a))).
Proof.
  unfold __init__, _fetch_from_url. rewrite ?read_from_file_eq. unfold read_file.
  destruct (str_eqb_spec (resolve s st) (lit "url")) as [Hu|_].
  { destruct (web w s) eqn:Hw; [|discriminate].
    intros [= <-]; simpl. repeat split; auto. }
  destruct (str_eqb_spec (resolve s st) (lit "path")) as [Hp|_].
  { destruct (files w s) eqn:Hf; [|discriminate].
    intros [= <-]; simpl. repeat split; auto. }
  destruct (str_eqb_spec (resolve s st) (lit "text")) as [Ht|_]; [|discriminate].
  intros [= <-]; simpl. repeat split; auto.
Qed.

Lemma words_constructed w s oc st a :
  __init__ w s oc st = Ok a -> _words false a = Some (tokens (_orig_content a)).
Proof.
  intros H. apply init_inv in H. destruct H as (_ & _ & _ & Hc & _).
  unfold _words. now rewrite Hc.
Qed.

(** * The statistics *)

(** ** [common_words] *)

Lemma common_words_of_spec minlen maxlen N a toks :
  _words false a = Some toks ->
  exists l, common_words_of minlen maxlen N a = Ok (Some l) /\
    length l <= Z.to_nat N /\
    Forall (fun e => exists t, fst e = upper t /\ In t toks /\
                               (minlen <= len t <= maxlen)%Z) l /\
    descending snd l.
Proof.
  intros Hw. unfold common_words_of. rewrite Hw.
  eexists. split; [reflexivity|]. split; [|split].
  - rewrite length_map. unfold most_common. apply firstn_le_length.
  - rewrite Forall_forall. intros [u f] Hin.
    apply in_map_iff in Hin. destruct Hin as ([x n] & Heq & Hin).
    injection Heq as <- <-. simpl. exists x. split; [reflexivity|].
    unfold most_common in Hin.
    assert (Hs : In (x, n) (sorted_rev Nat.ltb snd
              (Counter str_eqb
                 (filter (fun word => (minlen <=? len word)%Z && (len word <=? maxlen)%Z) toks)))).
    { rewrite <- (firstn_skipn (Z.to_nat N)). apply in_or_app. now left. }
    apply (Permutation_in _ (sort_perm snd _)) in Hs.
    apply (@Counter_count _ _ str_eqb_spec) in Hs. destruct Hs as [_ Hs].
    apply filter_In in Hs. destruct Hs as [Ht Hs].
    apply andb_true_iff in Hs. split; [exact Ht|lia].
  - apply descending_map_fst. unfold most_common.
    apply descending_firstn, sort_descending.
Qed.

(** C2, as the code has it.  Whatever the source, the bounds and the
    number requested, [common_words] returns without error; its entries
    are at most [N], and none when [N] is negative; each word is the
    uppercase form of a token whose length is between [minlen] and
    [maxlen], and has that length itself when the token is ASCII text; the
    counts descend.  A table is returned for inline text and for a file; a
    remote page has no entries. *)
Theorem common_words_bounded (w : World) (s : str) (oc : option str) (st : str)
    (a : Analyzer) (minlen maxlen N : Z) (cs : bool) :
  __init__ w s oc st = Ok a ->
  exists r, common_words minlen maxlen N cs a = Ok r /\
    (r = None <-> _src_type a = lit "url") /\
    (Z.of_nat (length (entries r)) <= Z.max 0 N)%Z /\
    Forall (fun e => exists t,
              fst e = upper t /\ In t (tokens (_orig_content a)) /\
              (minlen <= len t <= maxlen)%Z /\
              (ascii_text t -> (minlen <= len (fst e) <= maxlen)%Z))
           (entries r) /\
    descending snd (entries r).
Proof.
  intros Hi. pose proof (words_constructed _ _ _ _ Hi) as Hw.
  apply init_inv in Hi. destruct Hi as (_ & _ & _ & _ & Hk).
  destruct (common_words_of_spec minlen maxlen N a Hw) as (l & Hl & Hn & Hb & Hd).
  assert (Hb' : Forall (fun e => exists t,
              fst e = upper t /\ In t (tokens (_orig_content a)) /\
              (minlen <= len t <= maxlen)%Z /\
              (ascii_text t -> (minlen <= len (fst e) <= maxlen)%Z)) l).
  { rewrite Forall_forall in Hb |- *. intros e He.
    destruct (Hb e He) as (t & Heq & Ht & Hr). exists t.
    split; [exact Heq|]. split; [exact Ht|]. split; [exact Hr|].
    intros _. now rewrite Heq, len_upper. }
  unfold common_words.
  destruct Hk as [[Hk _]|[[Hk _]|[Hk _]]]; rewrite Hk; cbn.
  - exists (Some l). rewrite Hl. split; [reflexivity|]. split.
    + split; intros H; [discriminate|vm_compute in H; discriminate].
    + simpl. repeat split; auto; lia.
  - exists (Some l). rewrite Hl. split; [reflexivity|]. split.
    + split; intros H; [discriminate|vm_compute in H; discriminate].
    + simpl. repeat split; auto; lia.
  - exists None. simpl. repeat split; auto; try lia; constructor.
Qed.

(** C2, as stated, fails for a negative [count]: the table is empty, and
    no number of entries is at most [-1]. *)
Lemma common_words_negative_count :
  __init__ example_world (lit "Casey hit the ball. Casey ran.") None (lit "text")
  = Ok casey /\
  common_words 1 100 (-1) false casey = Ok (Some []) /\
  ~ (Z.of_nat (length (entries (Some (@nil (str * nat))))) <= -1)%Z.
Proof.
  split; [reflexivity|]. split; [reflexivity|]. simpl. lia.
Qed.

(** The end-to-end example of the specification. *)
Example casey_statistics :
  common_words 1 100 1 false casey = Ok (Some [(lit "CASEY", 2)]) /\
  word_count example_world casey = Ok (Some 6, casey) /\
  distinct_word_count casey = Ok (Some 5).
Proof. repeat split; reflexivity. Qed.

Lemma common_words_bounded_witness :
  __init__ example_world (lit "Casey hit the ball. Casey ran.") None (lit "text")
  = Ok casey /\
  exists r, common_words 1 100 1 false casey = Ok r /\
    (r = None <-> _src_type casey = lit "url") /\
    (Z.of_nat (length (entries r)) <= Z.max 0 1)%Z /\
    Forall (fun e => exists t,
              fst e = upper t /\ In t (tokens (_orig_content casey)) /\
              (1 <= len t <= 100)%Z /\
              (ascii_text t -> (1 <= len (fst e) <= 100)%Z))
           (entries r) /\
    descending snd (entries r).
Proof.
  split; [reflexivity|].
  apply (@common_words_bounded example_world
           (lit "Casey hit the ball. Casey ran.") None (lit "text") casey
           1 100 1 false).
  reflexivity.
Defined.

(** ** [char_distribution] *)

Lemma isupper_lower_char c : isupper (lower_char c) = false.
Proof.
  destruct c as [b0 b1 b2 b3 b4 b5 b6 b7].
  destruct b0, b1, b2, b3, b4, b5, b6, b7; reflexivity.
Qed.

(** On inline text the distribution is the table of the character stream:
    every entry holds the number of occurrences of its character, the
    counts descend, entries of equal count stand in the order in which their
    characters first occur, and no character has two entries. *)
Lemma char_distribution_inline w s oc st a cs lo :
  __init__ w s oc st = Ok a -> _src_type a = lit "text" ->
  let stream := characters (_orig_content a) cs lo in
  exists l, char_distribution w cs lo a = Ok (Some l) /\
    descending snd l /\
    NoDup (map fst l) /\
    (forall c n, In (c, n) l -> n = occurrences Ascii.eqb c stream /\ In c stream) /\
    (forall x y, before x y l -> snd x = snd y ->
       first_index Ascii.eqb (fst x) stream < first_index Ascii.eqb (fst y) stream).
Proof.
  intros _ Hk stream. unfold char_distribution. rewrite Hk. cbn.
  fold (characters (_orig_content a) cs lo). fold stream.
  eexists. split; [reflexivity|].
  pose proof (sort_perm snd (Counter Ascii.eqb stream)) as Hp.
  split; [apply sort_descending|]. split; [|split].
  - apply (Permutation_NoDup (Permutation_map fst (Permutation_sym Hp))).
    rewrite (@keys_Counter _ _ Ascii.eqb_spec). apply (@NoDup_uniq _ _ Ascii.eqb_spec).
  - intros c n Hin. apply (Permutation_in _ Hp) in Hin.
    now apply (@Counter_count _ _ Ascii.eqb_spec).
  - intros x y Hb He. apply (@first_index_lt_uniq _ _ Ascii.eqb_spec).
    rewrite <- (@keys_Counter _ _ Ascii.eqb_spec). apply before_map.
    now apply (sort_ties snd).
Qed.

(** What the inline-text branch counts: letters only when [letters_only]
    is set, and no uppercase letter unless [casesensitive] is set. *)
Lemma characters_filtered content cs lo c :
  In c (characters content cs lo) ->
  (lo = true -> isalpha c = true) /\ (cs = false -> isupper c = false).
Proof.
  unfold characters. rewrite filter_In. intros [Hin Hf]. split.
  - intros ->. exact Hf.
  - intros ->. apply in_map_iff in Hin. destruct Hin as (d & <- & _).
    apply isupper_lower_char.
Qed.

Example char_distribution_ABBA :
  __init__ example_world (lit "ABBA") None (lit "text") = Ok (inline (lit "ABBA")) /\
  char_distribution example_world false true (inline (lit "ABBA"))
  = Ok (Some [("a"%char, 2); ("b"%char, 2)]).
Proof. split; reflexivity. Qed.

(** On a file the sort key is the constant list [[1]]: the entries stay in
    the order of the counter, whatever their counts; and the filter keeps
    every character when [letters_only] is set. *)
Lemma char_distribution_file w a cs lo content :
  _src_type a = lit "path" -> files w (src a) = Some content ->
  char_distribution w cs lo a =
  Ok (Some (Counter Ascii.eqb
              (filter (fun char => lo || isalpha char)
                      (if cs then content else lower content)))).
Proof.
  intros Hk Hf. unfold char_distribution. rewrite ?read_from_file_eq. unfold read_file.
  rewrite Hk, Hf. cbn. now rewrite sorted_rev_constant.
Qed.

(** The same content as inline text is sorted. *)
Example char_distribution_abb_inline :
  char_distribution example_world false false (inline (lit "abb"))
  = Ok (Some [("b"%char, 2); ("a"%char, 1)]).
Proof. reflexivity. Qed.

(** C1.  On the file [abb.txt] of content [abb] the distribution is
    [('a', 1), ('b', 2)]: the counts ascend. *)
Theorem char_distribution_file_not_sorted :
  __init__ example_world (lit "abb.txt") None (lit "path")
  = Ok (from_file (lit "abb.txt") (lit "abb")) /\
  char_distribution example_world false false (from_file (lit "abb.txt") (lit "abb"))
  = Ok (Some [("a"%char, 1); ("b"%char, 2)]) /\
  ~ descending snd [("a"%char, 1); ("b"%char, 2)].
Proof.
  split; [reflexivity|]. split; [reflexivity|].
  intros H. inversion H as [|? ? _ Hall]; subst.
  inversion Hall as [|? ? Hle _]; subst. simpl in Hle. lia.
Qed.

(** C4.  On the file [a1.txt] of content [a1] the distribution with
    [letters_only] set counts the digit, and with [letters_only] unset it
    counts the letter alone. *)
Theorem char_distribution_file_counts_nonletters :
  __init__ example_world (lit "a1.txt") None (lit "path")
  = Ok (from_file (lit "a1.txt") (lit "a1")) /\
  char_distribution example_world false true (from_file (lit "a1.txt") (lit "a1"))
  = Ok (Some [("a"%char, 1); ("1"%char, 1)]) /\
  isalpha "1" = false /\
  char_distribution example_world false false (from_file (lit "a1.txt") (lit "a1"))
  = Ok (Some [("a"%char, 1)]).
Proof. repeat split; reflexivity. Qed.

(** ** The tokenizer *)

Lemma dropwhile_settled p s : settled p (dropwhile p s).
Proof.
  induction s as [|c s IH]; simpl; [exact I|].
  destruct (p c) eqn:Hc; [exact IH|exact Hc].
Qed.

Lemma dropwhile_id p s : settled p s -> dropwhile p s = s.
Proof. destruct s as [|c s]; simpl; [reflexivity|]. now intros ->. Qed.

Lemma dropwhile_prefix p s : exists pre, s = pre ++ dropwhile p s.
Proof.
  induction s as [|c s [pre IH]]; simpl.
  - now exists [].
  - destruct (p c); [|now exists []].
    exists (c :: pre). simpl. now f_equal.
Qed.

Lemma dropwhile_nil p s : dropwhile p s = [] <-> Forall (fun c => p c = true) s.
Proof.
  induction s as [|c s IH]; simpl.
  - split; [constructor|reflexivity].
  - destruct (p c) eqn:Hc.
    + rewrite IH. split; [now constructor|now inversion 1].
    + split; [discriminate|]. inversion 1; congruence.
Qed.

Lemma settled_app_l p s t : s <> [] -> settled p (s ++ t) -> settled p s.
Proof. destruct s; simpl; [congruence|auto]. Qed.

Lemma dropwhile_map p (f : ascii -> ascii) s :
  (forall c, p (f c) = p c) -> dropwhile p (map f s) = map f (dropwhile p s).
Proof.
  intros Hf. induction s as [|c s IH]; simpl; [reflexivity|].
  rewrite Hf. now destruct (p c).
Qed.

(** [strip] leaves nothing to strip. *)
Lemma strip_idempotent chars s : strip chars (strip chars s) = strip chars s.
Proof.
  unfold strip, rstrip, lstrip.
  set (p := fun c => char_in c chars).
  set (t := dropwhile p s). set (d := dropwhile p (rev t)).
  assert (Hd : settled p d) by apply dropwhile_settled.
  assert (Hr : settled p (rev d)).
  { destruct (dropwhile_prefix p (rev t)) as [pre Hpre]. fold d in Hpre.
    destruct d as [|c d'] eqn:Ed; [exact I|].
    apply settled_app_l with (t := rev pre).
    - intros H. apply (f_equal (@length _)) in H.
      rewrite length_rev in H. discriminate.
    - rewrite <- rev_app_distr, <- Hpre, rev_involutive. apply dropwhile_settled. }
  rewrite (dropwhile_id _ _ Hr), rev_involutive.
  now rewrite (dropwhile_id _ _ Hd).
Qed.

Lemma strip_map chars (f : ascii -> ascii) s :
  (forall c, char_in (f c) chars = char_in c chars) ->
  strip chars (map f s) = map f (strip chars s).
Proof.
  intros Hf. unfold strip, rstrip, lstrip.
  rewrite (dropwhile_map _ _ _ Hf), <- map_rev.
  now rewrite (dropwhile_map _ _ _ Hf), map_rev.
Qed.

(** A fragment is stripped to nothing exactly when it is all punctuation. *)
Lemma strip_nil chars s :
  strip chars s = [] <-> Forall (fun c => char_in c chars = true) s.
Proof.
  unfold strip, rstrip, lstrip.
  set (p := fun c => char_in c chars). split.
  - intros H. apply (f_equal (@rev _)) in H. rewrite rev_involutive in H.
    simpl in H. apply dropwhile_nil in H.
    pose proof (dropwhile_settled p s) as Hs.
    destruct (dropwhile p s) as [|c t] eqn:Et.
    + now apply dropwhile_nil.
    + exfalso. simpl in Hs. rewrite Forall_forall in H.
      specialize (H c). cbv beta in H. rewrite Hs in H.
      assert (false = true); [|discriminate].
      apply H. apply in_rev. rewrite rev_involutive. now left.
  - intros H. apply (dropwhile_nil p) in H. now rewrite H.
Qed.

Lemma ispunct_lower_char c : char_in (lower_char c) punctuation = char_in c punctuation.
Proof.
  destruct c as [b0 b1 b2 b3 b4 b5 b6 b7].
  destruct b0, b1, b2, b3, b4, b5, b6, b7; reflexivity.
Qed.

Lemma lower_char_idempotent c : lower_char (lower_char c) = lower_char c.
Proof.
  destruct c as [b0 b1 b2 b3 b4 b5 b6 b7].
  destruct b0, b1, b2, b3, b4, b5, b6, b7; reflexivity.
Qed.

Lemma lower_idempotent s : lower (lower s) = lower s.
Proof.
  unfold lower. rewrite map_map. apply map_ext, lower_char_idempotent.
Qed.

(** Normalising a token again changes nothing. *)
Lemma normalise_idempotent s :
  lower (strip punctuation (lower (strip punctuation s))) = lower (strip punctuation s).
Proof.
  unfold lower at 2. rewrite (strip_map _ _ _ ispunct_lower_char).
  fold (lower (strip punctuation (strip punctuation s))).
  now rewrite strip_idempotent, lower_idempotent.
Qed.

Lemma tokens_normalised content :
  map (fun word => lower (strip punctuation word)) (tokens content) = tokens content.
Proof.
  unfold tokens. rewrite map_map. apply map_ext. intros s. apply normalise_idempotent.
Qed.

(** The fragments of [split] are not empty. *)
Lemma split_from_nonempty cur s : Forall (fun frag => frag <> []) (split_from cur s).
Proof.
  assert (Hrev : forall c (l : str), rev (c :: l) <> []).
  { intros c l H. apply (f_equal (@length _)) in H.
    rewrite length_rev in H. discriminate. }
  revert cur; induction s as [|c s IH]; intros cur; simpl.
  - destruct cur; constructor; [apply Hrev|constructor].
  - destruct (isspace c); [|apply IH].
    destruct cur; [apply IH|]. constructor; [apply Hrev|apply IH].
Qed.

Lemma split_nonempty s : Forall (fun frag => frag <> []) (split s).
Proof. apply split_from_nonempty. Qed.

Lemma length_tokens content : length (tokens content) = length (split content).
Proof. apply length_map. Qed.

(** C3, as stated, fails on the content [ab --]: the fragment [--] gives
    an empty token, which [distinct_word_count], [common_words] with
    [minlen] 0 and [avg_word_length] all count. *)
Lemma words_keep_empty_token :
  __init__ example_world (lit "ab --") None (lit "text") = Ok (inline (lit "ab --")) /\
  _words false (inline (lit "ab --")) = Some [lit "ab"; []] /\
  In [] (tokens (lit "ab --")) /\
  distinct_word_count (inline (lit "ab --")) = Ok (Some 2) /\
  common_words 0 100 10 false (inline (lit "ab --"))
  = Ok (Some [(lit "AB", 1); ([], 1)]) /\
  avg_word_length (inline (lit "ab --"))
  = Ok (truediv 1 1, inline (lit "ab --")).
Proof.
  split; [reflexivity|]. split; [reflexivity|].
  split; [right; left; reflexivity|]. repeat split; reflexivity.
Qed.

(** ** [word_count] and [distinct_word_count] *)

Lemma with_content_same a c : _content a = c -> with_content c a = a.
Proof. destruct a; simpl; intros ->; reflexivity. Qed.

(** After construction, in the world of the construction, [word_count] is
    the number of whitespace-delimited fragments and leaves the instance as
    it is. *)
Lemma word_count_constructed w s oc st a :
  __init__ w s oc st = Ok a ->
  word_count w a = Ok (Some (length (split (_orig_content a))), a).
Proof.
  intros Hi. apply init_inv in Hi. destruct Hi as (Hs & _ & _ & Hc & Hk).
  destruct a as [sr sty kty co orig tx]. simpl in *. subst sr co.
  unfold word_count, bind, self, set_content, lift, len_words, with_content,
    _fetch_from_url, _words.
  rewrite ?read_from_file_eq. unfold read_file.
  destruct Hk as [[Hk _]|[[Hk Hf]|[Hk Hf]]]; subst kty; cbn;
    rewrite ?Hf; cbn; now rewrite length_map.
Qed.

Lemma distinct_word_count_constructed w s oc st a :
  __init__ w s oc st = Ok a ->
  distinct_word_count a =
  Ok (if _src_type a == "url" then None
      else Some (len_set str_eqb (tokens (_orig_content a)))).
Proof.
  intros Hi. pose proof (words_constructed _ _ _ _ Hi) as Hw.
  apply init_inv in Hi. destruct Hi as (_ & _ & _ & _ & Hk).
  unfold distinct_word_count. rewrite Hw.
  destruct Hk as [[Hk _]|[[Hk _]|[Hk _]]]; rewrite Hk; reflexivity.
Qed.

(** C7, as the code has it.  For inline text and for a file,
    [word_count >= distinct_word_count >= 0], the first being the number of
    whitespace-delimited fragments and the second the number of distinct
    tokens; for a remote page [word_count] is that number still but
    [distinct_word_count] is [None]. *)
Theorem distinct_le_word_count (w : World) (s : str) (oc : option str) (st : str)
    (a : Analyzer) :
  __init__ w s oc st = Ok a ->
  let n := length (split (_orig_content a)) in
  let d := len_set str_eqb (tokens (_orig_content a)) in
  word_count w a = Ok (Some n, a) /\
  (_src_type a <> lit "url" ->
     distinct_word_count a = Ok (Some d) /\ 0 <= d <= n) /\
  (_src_type a = lit "url" -> distinct_word_count a = Ok None).
Proof.
  intros Hi n d. split; [now apply word_count_constructed with (s := s) (oc := oc) (st := st)|].
  rewrite (distinct_word_count_constructed _ _ _ _ Hi).
  destruct (str_eqb_spec (_src_type a) (lit "url")) as [Hu|Hu]; split; try tauto.
  intros _. split; [reflexivity|]. subst n d. unfold len_set.
  pose proof (length_uniq_le str_eqb (tokens (_orig_content a))).
  rewrite length_tokens in H. lia.
Qed.

Lemma distinct_le_word_count_witness :
  __init__ example_world (lit "Casey hit the ball. Casey ran.") None (lit "text")
  = Ok casey /\
  let n := length (split (_orig_content casey)) in
  let d := len_set str_eqb (tokens (_orig_content casey)) in
  word_count example_world casey = Ok (Some n, casey) /\
  (_src_type casey <> lit "url" ->
     distinct_word_count casey = Ok (Some d) /\ 0 <= d <= n) /\
  (_src_type casey = lit "url" -> distinct_word_count casey = Ok None).
Proof.
  split; [reflexivity|].
  apply (@distinct_le_word_count example_world
           (lit "Casey hit the ball. Casey ran.") None (lit "text") casey).
  reflexivity.
Defined.

(** C7, as stated, fails on a remote page: [word_count] is 4 and
    [distinct_word_count] is [None], which is no number. *)
Lemma distinct_word_count_url_none :
  __init__ example_world (lit "http://example.org") None (lit "url") = Ok example_page /\
  word_count example_world example_page = Ok (Some 4, example_page) /\
  distinct_word_count example_page = Ok None /\
  (forall d : nat, distinct_word_count example_page <> Ok (Some d)).
Proof. repeat split; try reflexivity. intros d H. discriminate H. Qed.

(** C10.  An instance over a remote page gets [None], and no error, from
    [common_words], [char_distribution] and [distinct_word_count], while
    [word_count] gives it an integer. *)
Theorem url_statistics_none (w : World) (s : str) (oc : option str) (st : str)
    (a : Analyzer) (minlen maxlen N : Z) (cs lo : bool) :
  __init__ w s oc st = Ok a -> _src_type a = lit "url" ->
  common_words minlen maxlen N cs a = Ok None /\
  char_distribution w cs lo a = Ok None /\
  distinct_word_count a = Ok None /\
  word_count w a = Ok (Some (length (split (_orig_content a))), a).
Proof.
  intros Hi Hu.
  pose proof (word_count_constructed _ _ _ _ Hi) as Hwc.
  unfold common_words, char_distribution, distinct_word_count.
  rewrite Hu. cbn. auto.
Qed.

Lemma url_statistics_none_witness :
  __init__ example_world (lit "http://example.org") None (lit "url") = Ok example_page /\
  _src_type example_page = lit "url" /\
  common_words 1 100 10 false example_page = Ok None /\
  char_distribution example_world false false example_page = Ok None /\
  distinct_word_count example_page = Ok None /\
  word_count example_world example_page
  = Ok (Some (length (split (_orig_content example_page))), example_page).
Proof.
  split; [reflexivity|]. split; [reflexivity|].
  apply (@url_statistics_none example_world (lit "http://example.org") None
           (lit "url") example_page 1 100 10 false false); reflexivity.
Defined.

(** ** [avg_word_length] *)

(** [round_half_even] gives a nearest integer. *)
Lemma round_half_even_nearest (n d : Z) :
  (0 < d)%Z -> (2 * Z.abs (n - round_half_even n d * d) <= d)%Z.
Proof.
  intros Hd. unfold round_half_even.
  pose proof (Z.div_mod n d ltac:(lia)) as Hn.
  pose proof (Z.mod_pos_bound n d Hd) as Hr.
  destruct (Z.compare_spec (2 * (n mod d)) d) as [He|Hl|Hg];
    [destruct (Z.even (n / d))| |]; lia.
Qed.

Lemma avg_word_length_constructed w s oc st a :
  __init__ w s oc st = Ok a ->
  avg_word_length a =
  Ok (if _src_type a == "url" then S754_zero false
      else match tokens (_orig_content a) with
           | [] => S754_zero false
           | toks => mean_length toks
           end, a).
Proof.
  intros Hi. apply init_inv in Hi. destruct Hi as (Hs & _ & _ & Hc & Hk).
  destruct a as [sr sty kty co orig tx].
  cbn [src src_type _src_type _content _orig_content text] in *. subst sr co.
  unfold avg_word_length, bind, self, set_content, ret, with_content, _words.
  fields.
  destruct Hk as [[Hk _]|[[Hk Hf]|[Hk Hf]]]; subst kty; kind_eval; cbv beta iota;
    fields; fold (tokens orig); try destruct (tokens orig); reflexivity.
Qed.

(** C6, as the code has it.  For inline text and for a file,
    [avg_word_length] is the mean of the token lengths, the sum divided by
    the number of tokens in floating point, rounded to two decimals, and
    [0.0] when there is no token; for the inline text [a bb ccc] it is
    [2.0].  For a remote page it is [0.0] whatever the page holds. *)
Theorem avg_word_length_mean (w : World) (s : str) (oc : option str) (st : str)
    (a : Analyzer) :
  __init__ w s oc st = Ok a ->
  let toks := tokens (_orig_content a) in
  exists v, avg_word_length a = Ok (v, a) /\
    (_src_type a = lit "url" -> v = S754_zero false) /\
    (_src_type a <> lit "url" -> toks = [] -> v = S754_zero false) /\
    (_src_type a <> lit "url" -> toks <> [] ->
       v = round2 (truediv (fold_right Z.add 0%Z (map len toks))
                           (Z.of_nat (length toks)))) /\
    avg_word_length (inline (lit "a bb ccc"))
    = Ok (float_of_int 2, inline (lit "a bb ccc")).
Proof.
  intros Hi toks. rewrite (avg_word_length_constructed _ _ _ _ Hi).
  eexists. split; [reflexivity|].
  destruct (str_eqb_spec (_src_type a) (lit "url")) as [Hu|Hu].
  - repeat split; tauto.
  - fold toks. repeat split; try tauto.
    + now intros _ ->.
    + intros _ Hne. destruct toks; [congruence|reflexivity].
Qed.

Lemma avg_word_length_mean_witness :
  __init__ example_world (lit "Casey hit the ball. Casey ran.") None (lit "text")
  = Ok casey /\
  let toks := tokens (_orig_content casey) in
  exists v, avg_word_length casey = Ok (v, casey) /\
    (_src_type casey = lit "url" -> v = S754_zero false) /\
    (_src_type casey <> lit "url" -> toks = [] -> v = S754_zero false) /\
    (_src_type casey <> lit "url" -> toks <> [] ->
       v = round2 (truediv (fold_right Z.add 0%Z (map len toks))
                           (Z.of_nat (length toks)))) /\
    avg_word_length (inline (lit "a bb ccc"))
    = Ok (float_of_int 2, inline (lit "a bb ccc")).
Proof.
  split; [reflexivity|].
  apply (@avg_word_length_mean example_world
           (lit "Casey hit the ball. Casey ran.") None (lit "text") casey).
  reflexivity.
Defined.

(** C6, as stated, fails on a remote page: the tokens of [example_page]
    have the mean length 3.5, and [avg_word_length] is [0.0]. *)
Lemma avg_word_length_url_zero :
  __init__ example_world (lit "http://example.org") None (lit "url") = Ok example_page /\
  avg_word_length example_page = Ok (S754_zero false, example_page) /\
  tokens (_orig_content example_page) = [lit "good"; lit "day"; lit "bad"; lit "luck"] /\
  mean_length (tokens (_orig_content example_page)) = truediv 7 2 /\
  truediv 7 2 <> S754_zero false.
Proof. repeat split; try reflexivity. vm_compute. discriminate. Qed.

(** ** [positivity] *)

Lemma tally_hits (P N toks : list str) :
  (forall t, contains str_eqb t P = true -> contains str_eqb t N = true -> False) ->
  fold_right Z.add 0%Z (map (contribution P N) toks) = (hits P toks - hits N toks)%Z.
Proof.
  intros Hd. unfold hits. induction toks as [|t toks IH]; [reflexivity|].
  cbn [map fold_right filter]. rewrite IH. unfold contribution.
  destruct (contains str_eqb t P) eqn:HP, (contains str_eqb t N) eqn:HN;
    cbn [length]; try lia.
  exfalso. now apply (Hd t).
Qed.

(** A word of both lexicons counts as positive only. *)
Lemma tally_hits_overlap (P N toks : list str) :
  fold_right Z.add 0%Z (map (contribution P N) toks) =
  (hits P toks
   - hits N (filter (fun word => negb (contains str_eqb word P)) toks))%Z.
Proof.
  unfold hits. induction toks as [|t toks IH]; [reflexivity|].
  cbn [map fold_right filter]. rewrite IH. unfold contribution.
  destruct (contains str_eqb t P) eqn:HP; cbn [negb filter length]; [lia|].
  destruct (contains str_eqb t N) eqn:HN; cbn [length]; lia.
Qed.

Lemma positivity_constructed w s oc st a pos neg :
  __init__ w s oc st = Ok a ->
  files w (lit "fca/positive.txt") = Some pos ->
  files w (lit "fca/negative.txt") = Some neg ->
  let toks := tokens (_orig_content a) in
  let tally := fold_right Z.add 0%Z (map (contribution (lexicon pos) (lexicon neg)) toks) in
  let n := length (split (_orig_content a)) in
  positivity w a =
  Ok (if (0 <? Z.of_nat n)%Z
      then PyFloat (fmul_int (truediv tally (Z.of_nat n)) 1000)
      else PyInt 0, a).
Proof.
  intros Hi Hp Hn toks tally n.
  unfold positivity, bind, lift, self, open_file, read_file.
  rewrite Hp, Hn, (words_constructed _ _ _ _ Hi), tokens_normalised.
  rewrite (word_count_constructed _ _ _ _ Hi).
  fold (lexicon pos) (lexicon neg). fold toks. fold tally. fold n.
  now destruct (0 <? Z.of_nat n)%Z.
Qed.

(** Zero divided by a positive integer, times 1000, is [0.0]. *)
Lemma zero_score (n : nat) :
  0 < n -> eq_zero (PyFloat (fmul_int (truediv 0 (Z.of_nat n)) 1000)) = true.
Proof. destruct n as [|n]; [lia|]. intros _. reflexivity. Qed.

(** C5.  With both word lists readable and no word in both, [positivity]
    is the number of tokens in the positive lexicon minus the number of
    tokens in the negative lexicon, divided by [word_count], times 1000,
    [word_count] being the number of whitespace-delimited fragments; it is
    the integer [0] when [word_count] is [0], and it equals [0] when the two
    numbers of tokens are equal. *)
Theorem positivity_formula (w : World) (s : str) (oc : option str) (st : str)
    (a : Analyzer) (pos neg : str) :
  __init__ w s oc st = Ok a ->
  files w (lit "fca/positive.txt") = Some pos ->
  files w (lit "fca/negative.txt") = Some neg ->
  (forall t, In t (lexicon pos) -> In t (lexicon neg) -> False) ->
  let toks := tokens (_orig_content a) in
  let P := hits (lexicon pos) toks in
  let N := hits (lexicon neg) toks in
  let n := length (split (_orig_content a)) in
  word_count w a = Ok (Some n, a) /\
  exists v, positivity w a = Ok (v, a) /\
    (n = 0 -> v = PyInt 0) /\
    (0 < n -> v = PyFloat (fmul_int (truediv (P - N) (Z.of_nat n)) 1000)) /\
    (P = N -> eq_zero v = true).
Proof.
  intros Hi Hp Hn Hd toks P N n.
  split; [exact (word_count_constructed _ _ _ _ Hi)|].
  rewrite (positivity_constructed _ _ _ _ Hi Hp Hn).
  fold toks. fold n. rewrite tally_hits.
  2:{ intros t H1 H2. apply (Hd t); now apply (@contains_In _ _ str_eqb_spec). }
  fold P. fold N. eexists. split; [reflexivity|].
  destruct (Z.ltb_spec 0 (Z.of_nat n)) as [Hpos|Hz].
  - split; [lia|]. split; [reflexivity|].
    intros ->. rewrite Z.sub_diag. apply zero_score. lia.
  - split; [reflexivity|]. split; [lia|]. reflexivity.
Qed.

Lemma positivity_formula_witness :
  __init__ example_world (lit "http://example.org") None (lit "url") = Ok example_page /\
  files example_world (lit "fca/positive.txt") = Some (lit "good fine") /\
  files example_world (lit "fca/negative.txt") = Some (lit "bad poor") /\
  (forall t, In t (lexicon (lit "good fine")) -> In t (lexicon (lit "bad poor")) -> False) /\
  let toks := tokens (_orig_content example_page) in
  let P := hits (lexicon (lit "good fine")) toks in
  let N := hits (lexicon (lit "bad poor")) toks in
  let n := length (split (_orig_content example_page)) in
  word_count example_world example_page = Ok (Some n, example_page) /\
  exists v, positivity example_world example_page = Ok (v, example_page) /\
    (n = 0 -> v = PyInt 0) /\
    (0 < n -> v = PyFloat (fmul_int (truediv (P - N) (Z.of_nat n)) 1000)) /\
    (P = N -> eq_zero v = true).
Proof.
  assert (Hd : forall t, In t (lexicon (lit "good fine")) ->
                         In t (lexicon (lit "bad poor")) -> False).
  { intros t H1 H2. vm_compute in H1, H2.
    destruct H1 as [<-|[<-|[]]]; destruct H2 as [H|[H|[]]]; discriminate. }
  split; [reflexivity|]. split; [reflexivity|]. split; [reflexivity|].
  split; [exact Hd|].
  apply (@positivity_formula example_world (lit "http://example.org") None
           (lit "url") example_page (lit "good fine") (lit "bad poor"));
    [reflexivity|reflexivity|reflexivity|exact Hd].
Defined.

(** With the word [good] in both lists the text [good] scores 1000: one
    token in each lexicon, and no zero. *)
Example positivity_overlap :
  let w := {| files := fun p => if p == "fca/positive.txt" then Some (lit "good")
                                else if p == "fca/negative.txt" then Some (lit "good")
                                else None;
              web := fun _ => None;
              unreadable := fun _ => AtOpen OSError;
              unreachable := fun _ => RequestException |} in
  positivity w (inline (lit "good"))
  = Ok (PyFloat (float_of_int 1000), inline (lit "good")).
Proof. reflexivity. Qed.

(** ** The source resolver *)

Lemma startswith_spec s p : startswith s p = true <-> exists r, s = p ++ r.
Proof.
  revert s; induction p as [|d p IH]; intros s; simpl.
  - split; [intros _; now exists s|intros _; now destruct s].
  - destruct s as [|c s]; simpl.
    + split; [discriminate|intros [r H]; discriminate].
    + rewrite andb_true_iff, IH. split.
      * intros [Hc [r ->]]. apply Ascii.eqb_eq in Hc. subst. now exists r.
      * intros [r H]. injection H as -> ->. split; [apply Ascii.eqb_refl|now exists r].
Qed.

Lemma endswith_spec s p : endswith s p = true <-> exists r, s = r ++ p.
Proof.
  unfold endswith. rewrite startswith_spec. split; intros [r H].
  - exists (rev r). apply (f_equal (@rev _)) in H.
    now rewrite rev_involutive, rev_app_distr, rev_involutive in H.
  - exists (rev r). subst. apply rev_app_distr.
Qed.

Lemma char_in_In c s : char_in c s = true <-> In c s.
Proof. apply (@contains_In _ _ Ascii.eqb_spec). Qed.

(** C8.  With the declared type [discover] the source is classified in
    this order, and exactly one of three cases holds.  A source starting
    with [http] is a remote page: the construction fetches it from the
    network and fails when the request fails.  Otherwise a source ending in
    [.txt] or holding a slash or a backslash is a file: the construction
    reads it and fails when the file cannot be read.  Otherwise the source is
    inline text, and the construction succeeds with the source itself as
    content. *)
Theorem discover_classification (s : str) :
  let url_prefix := exists r, s = lit "http" ++ r in
  let file_like :=
    (exists r, s = r ++ lit ".txt") \/ In "/"%char s \/ In "\"%char s in
  (url_prefix /\ resolve s (lit "discover") = lit "url" /\
   forall w oc,
     __init__ w s oc (lit "discover") =
     match web w s with
     | Some content => Ok (discovered (from_url s content))
     | None => Raise (unreachable w s)
     end) \/
  (~ url_prefix /\ file_like /\ resolve s (lit "discover") = lit "path" /\
   forall w oc,
     __init__ w s oc (lit "discover") =
     match files w s with
     | Some content => Ok (discovered (from_file s content))
     | None => Raise (raised (unreadable w s))
     end) \/
  (~ url_prefix /\ ~ file_like /\ resolve s (lit "discover") = lit "text" /\
   forall w oc, __init__ w s oc (lit "discover") = Ok (discovered (inline s))).
Proof.
  intros url_prefix file_like.
  assert (Hu : startswith s (lit "http") = true <-> url_prefix)
    by apply startswith_spec.
  assert (Hf : endswith s (lit ".txt") || char_in "/" s || char_in "\" s = true
               <-> file_like).
  { unfold file_like. rewrite !orb_true_iff, endswith_spec, !char_in_In. tauto. }
  assert (Hr : resolve s (lit "discover") =
               if startswith s (lit "http") then lit "url"
               else if endswith s (lit ".txt") || char_in "/" s || char_in "\" s
                    then lit "path" else lit "text") by reflexivity.
  unfold __init__, _fetch_from_url, _read_from_file, open_file, read_file.
  rewrite Hr.
  destruct (startswith s (lit "http")).
  - left. split; [now apply Hu|]. split; [reflexivity|].
    intros w oc. kind_eval. cbv iota. now destruct (web w s).
  - assert (Hnu : ~ url_prefix) by (intros H; apply Hu in H; discriminate).
    right. destruct (endswith s (lit ".txt") || char_in "/" s || char_in "\" s).
    + left. split; [assumption|]. split; [now apply Hf|]. split; [reflexivity|].
      intros w oc. kind_eval. cbv iota.
      destruct (files w s); [reflexivity|]. now destruct (unreadable w s).
    + right. split; [assumption|].
      split; [intros H; apply Hf in H; discriminate|]. split; [reflexivity|].
      intros w oc. reflexivity.
Qed.

(** The three cases, each at a source of the examples. *)
Lemma discover_classification_witness :
  (resolve (lit "http://example.org") (lit "discover") = lit "url" /\
   __init__ example_world (lit "http://example.org") None (lit "discover")
   = Ok (discovered example_page)) /\
  (resolve (lit "abb.txt") (lit "discover") = lit "path" /\
   __init__ example_world (lit "abb.txt") None (lit "discover")
   = Ok (discovered (from_file (lit "abb.txt") (lit "abb")))) /\
  (resolve (lit "Casey at the bat") (lit "discover") = lit "text" /\
   __init__ example_world (lit "Casey at the bat") None (lit "discover")
   = Ok (discovered (inline (lit "Casey at the bat")))).
Proof.
  split; [|split].
  - destruct (discover_classification (lit "http://example.org"))
      as [(_ & Hr & Hi)|[(_ & _ & Hr & _)|(_ & _ & Hr & _)]].
    + split; [exact Hr|]. exact (Hi example_world None).
    + vm_compute in Hr. discriminate Hr.
    + vm_compute in Hr. discriminate Hr.
  - destruct (discover_classification (lit "abb.txt"))
      as [(_ & Hr & _)|[(_ & _ & Hr & Hi)|(_ & _ & Hr & _)]].
    + vm_compute in Hr. discriminate Hr.
    + split; [exact Hr|]. exact (Hi example_world None).
    + vm_compute in Hr. discriminate Hr.
  - destruct (discover_classification (lit "Casey at the bat"))
      as [(_ & Hr & _)|[(_ & _ & Hr & _)|(_ & _ & Hr & Hi)]].
    + vm_compute in Hr. discriminate Hr.
    + vm_compute in Hr. discriminate Hr.
    + split; [exact Hr|]. exact (Hi example_world None).
Defined.

Example discover_examples :
  resolve (lit "http://example.org") (lit "discover") = lit "url" /\
  resolve (lit "httpd is a server") (lit "discover") = lit "url" /\
  resolve (lit "fca/a-room-with-a-view.txt") (lit "discover") = lit "path" /\
  resolve (lit "either/or") (lit "discover") = lit "path" /\
  resolve (lit "Casey at the bat") (lit "discover") = lit "text".
Proof. repeat split; reflexivity. Qed.

(** ** [reset_content] *)

Lemma reset_content_constructed w s oc st a c :
  __init__ w s oc st = Ok a ->
  reset_content (with_content c a) = Ok (Some (_orig_content a), a).
Proof.
  intros Hi. apply init_inv in Hi. destruct Hi as (_ & _ & _ & Hc & _).
  destruct a as [sr sty kty co orig tx].
  cbn [_content _orig_content] in Hc. subst co. reflexivity.
Qed.

(** C9.  Whatever was assigned to the working content since construction,
    [reset_content] puts the instance back into the state it had after
    construction, so each of the six statistics gives after it, in any
    world, the result it gives on the instance as constructed. *)
Theorem reset_content_restores (w : World) (s : str) (oc : option str) (st : str)
    (a : Analyzer) :
  __init__ w s oc st = Ok a ->
  forall (c : option str) (w' : World) (minlen maxlen N : Z) (cs lo : bool),
  reset_content (with_content c a) = Ok (Some (_orig_content a), a) /\
  after_reset (common_words minlen maxlen N cs) (with_content c a)
  = common_words minlen maxlen N cs a /\
  after_reset (char_distribution w' cs lo) (with_content c a)
  = char_distribution w' cs lo a /\
  after_reset (word_count w') (with_content c a) = word_count w' a /\
  after_reset distinct_word_count (with_content c a) = distinct_word_count a /\
  after_reset avg_word_length (with_content c a) = avg_word_length a /\
  after_reset (positivity w') (with_content c a) = positivity w' a.
Proof.
  intros Hi c w' minlen maxlen N cs lo.
  pose proof (@reset_content_constructed _ _ _ _ _ c Hi) as Hr.
  unfold after_reset. rewrite Hr. repeat split; reflexivity.
Qed.

Lemma reset_content_restores_witness :
  __init__ example_world (lit "Casey hit the ball. Casey ran.") None (lit "text")
  = Ok casey /\
  forall (c : option str) (w' : World) (minlen maxlen N : Z) (cs lo : bool),
  reset_content (with_content c casey) = Ok (Some (_orig_content casey), casey) /\
  after_reset (common_words minlen maxlen N cs) (with_content c casey)
  = common_words minlen maxlen N cs casey /\
  after_reset (char_distribution w' cs lo) (with_content c casey)
  = char_distribution w' cs lo casey /\
  after_reset (word_count w') (with_content c casey) = word_count w' casey /\
  after_reset distinct_word_count (with_content c casey) = distinct_word_count casey /\
  after_reset avg_word_length (with_content c casey) = avg_word_length casey /\
  after_reset (positivity w') (with_content c casey) = positivity w' casey.
Proof.
  split; [reflexivity|].
  apply (@reset_content_restores example_world
           (lit "Casey hit the ball. Casey ran.") None (lit "text") casey).
  reflexivity.
Defined.

(** * Further properties of the class *)

(** ** Construction *)

(** The construction fails in three ways only: the request for a page
    fails, or the reading of a file fails, each with the exception of the
    failing call; or the source type is none of [url], [path], [text], with
    [ValueError]. *)
Theorem init_raises (w : World) (s : str) (oc : option str) (st : str) (e : exn) :
  __init__ w s oc st = Raise e <->
  (resolve s st = lit "url" /\ web w s = None /\ e = unreachable w s) \/
  (resolve s st = lit "path" /\ files w s = None /\ e = raised (unreadable w s)) \/
  (resolve s st <> lit "url" /\ resolve s st <> lit "path" /\
   resolve s st <> lit "text" /\ e = ValueError).
Proof.
  unfold __init__, _fetch_from_url. rewrite ?read_from_file_eq. unfold read_file.
  destruct (str_eqb_spec (resolve s st) (lit "url")) as [Hu|Hu].
  { rewrite Hu. destruct (web w s); split.
    - discriminate.
    - intros [(_ & H & _)|[(H & _)|(H & _)]]; try discriminate. now elim H.
    - intros [= <-]. now left.
    - intros [(_ & _ & ->)|[(H & _)|(H & _)]];
        [reflexivity|discriminate|now elim H]. }
  destruct (str_eqb_spec (resolve s st) (lit "path")) as [Hp|Hp].
  { rewrite Hp. destruct (files w s); split.
    - discriminate.
    - intros [(H & _)|[(_ & H & _)|(_ & H & _)]]; try discriminate. now elim H.
    - intros [= <-]. right. now left.
    - intros [(H & _)|[(_ & _ & ->)|(_ & H & _)]];
        [discriminate|reflexivity|now elim H]. }
  destruct (str_eqb_spec (resolve s st) (lit "text")) as [Ht|Ht].
  { split; [discriminate|].
    intros [(H & _)|[(H & _)|(_ & _ & H & _)]]; contradiction. }
  split.
  - intros [= <-]. right. right. auto.
  - intros [(H & _)|[(H & _)|(_ & _ & _ & ->)]]; [contradiction|contradiction|reflexivity].
Qed.

(** ** The shape of the tokens *)

Lemma isspace_lower_char c : isspace (lower_char c) = isspace c.
Proof.
  destruct c as [b0 b1 b2 b3 b4 b5 b6 b7].
  destruct b0, b1, b2, b3, b4, b5, b6, b7; reflexivity.
Qed.

Lemma split_from_no_space cur s :
  Forall (fun c => isspace c = false) cur ->
  Forall (Forall (fun c => isspace c = false)) (split_from cur s).
Proof.
  revert cur. induction s as [|c s IH]; intros cur Hcur; simpl.
  - destruct cur; constructor; [|constructor].
    apply Forall_rev. exact Hcur.
  - destruct (isspace c) eqn:Hc.
    + destruct cur; [now apply IH|].
      constructor; [now apply Forall_rev|now apply IH].
    + apply IH. now constructor.
Qed.

Lemma In_dropwhile p c s : In c (dropwhile p s) -> In c s.
Proof.
  destruct (dropwhile_prefix p s) as [pre H]. intros Hin.
  rewrite H. apply in_or_app. now right.
Qed.

Lemma In_strip chars c s : In c (strip chars s) -> In c s.
Proof.
  unfold strip, rstrip, lstrip. intros H.
  apply in_rev, In_dropwhile, in_rev in H. now apply In_dropwhile in H.
Qed.

(** A stripped string neither begins nor ends with a stripped character. *)
Lemma strip_settled chars s :
  settled (fun c => char_in c chars) (strip chars s) /\
  settled (fun c => char_in c chars) (rev (strip chars s)).
Proof.
  unfold strip, rstrip, lstrip.
  set (p := fun c => char_in c chars).
  set (t := dropwhile p s). set (d := dropwhile p (rev t)).
  rewrite rev_involutive. split; [|apply dropwhile_settled].
  destruct (dropwhile_prefix p (rev t)) as [pre Hpre]. fold d in Hpre.
  destruct d as [|c d'] eqn:Ed; [exact I|].
  apply settled_app_l with (t := rev pre).
  - intros H. apply (f_equal (@length _)) in H.
    rewrite length_rev in H. discriminate.
  - rewrite <- rev_app_distr, <- Hpre, rev_involutive. apply dropwhile_settled.
Qed.

Lemma settled_map p (f : ascii -> ascii) s :
  (forall c, p (f c) = p c) -> settled p s -> settled p (map f s).
Proof. intros Hf. destruct s as [|c s]; simpl; [auto|]. now rewrite Hf. Qed.

(** No token holds a whitespace character, and no token begins or ends
    with a punctuation character; in ASCII text no token holds an uppercase
    letter. *)
Theorem tokens_shape (content tok : str) :
  In tok (tokens content) ->
  Forall (fun c => isspace c = false) tok /\
  settled ispunct tok /\ settled ispunct (rev tok) /\
  (ascii_text content -> Forall (fun c => isupper c = false) tok).
Proof.
  unfold tokens. rewrite in_map_iff. intros (frag & <- & Hin).
  pose proof (@split_from_no_space [] content (Forall_nil _)) as Hsp.
  rewrite Forall_forall in Hsp. specialize (Hsp frag Hin).
  rewrite Forall_forall in Hsp.
  destruct (strip_settled punctuation frag) as [H1 H2].
  split; [|split; [|split]].
  - rewrite Forall_forall. intros c Hc.
    apply in_map_iff in Hc. destruct Hc as (d & <- & Hd).
    rewrite isspace_lower_char. apply Hsp. now apply In_strip in Hd.
  - apply settled_map; [apply ispunct_lower_char|exact H1].
  - unfold lower. rewrite <- map_rev.
    apply settled_map; [apply ispunct_lower_char|exact H2].
  - intros _. rewrite Forall_forall. intros c Hc.
    apply in_map_iff in Hc. destruct Hc as (d & <- & _).
    apply isupper_lower_char.
Qed.

Lemma tokens_shape_witness :
  In (lit "casey's") (tokens (lit "(Casey's) bat!")) /\
  Forall (fun c => isspace c = false) (lit "casey's") /\
  settled ispunct (lit "casey's") /\ settled ispunct (rev (lit "casey's")) /\
  (ascii_text (lit "(Casey's) bat!") ->
   Forall (fun c => isupper c = false) (lit "casey's")).
Proof.
  assert (H : In (lit "casey's") (tokens (lit "(Casey's) bat!")))
    by (left; reflexivity).
  split; [exact H|]. exact (tokens_shape _ _ H).
Defined.

(** ** The empty document *)

Lemma split_from_nil cur s :
  split_from cur s = [] <-> cur = [] /\ Forall (fun c => isspace c = true) s.
Proof.
  revert cur. induction s as [|c s IH]; intros cur; simpl.
  - destruct cur; split; try discriminate; auto.
    intros [H _]. discriminate.
  - destruct (isspace c) eqn:Hc.
    + destruct cur.
      * rewrite IH. split; intros [H1 H2]; split; auto.
        now inversion H2.
      * split; [discriminate|]. intros [H _]. discriminate.
    + rewrite IH. split; [intros [H _]; discriminate|].
      intros [_ H]. inversion H; congruence.
Qed.

Lemma split_nil s : split s = [] <-> Forall (fun c => isspace c = true) s.
Proof. unfold split. rewrite split_from_nil. tauto. Qed.

Lemma tokens_nil content :
  tokens content = [] <-> Forall (fun c => isspace c = true) content.
Proof.
  rewrite <- split_nil. unfold tokens. split.
  - apply map_eq_nil.
  - now intros ->.
Qed.

(** [word_count] is zero exactly when the content holds whitespace only,
    and so is [distinct_word_count] where it is a number.  On such a
    document no statistic raises: [avg_word_length] is [0.0], [common_words]
    is the empty list and [positivity] is the integer [0]. *)
Theorem blank_document (w : World) (s : str) (oc : option str) (st : str)
    (a : Analyzer) :
  __init__ w s oc st = Ok a ->
  let blank := Forall (fun c => isspace c = true) (_orig_content a) in
  (word_count w a = Ok (Some 0, a) <-> blank) /\
  (_src_type a <> lit "url" -> (distinct_word_count a = Ok (Some 0) <-> blank)) /\
  (blank ->
   avg_word_length a = Ok (S754_zero false, a) /\
   (_src_type a <> lit "url" ->
    forall minlen maxlen N cs, common_words minlen maxlen N cs a = Ok (Some [])) /\
   (forall pos neg,
      files w (lit "fca/positive.txt") = Some pos ->
      files w (lit "fca/negative.txt") = Some neg ->
      positivity w a = Ok (PyInt 0, a))).
Proof.
  intros Hi blank.
  pose proof (word_count_constructed _ _ _ _ Hi) as Hwc.
  pose proof (distinct_word_count_constructed _ _ _ _ Hi) as Hd.
  pose proof (avg_word_length_constructed _ _ _ _ Hi) as Ha.
  pose proof (words_constructed _ _ _ _ Hi) as Hw.
  assert (Hlen : length (split (_orig_content a)) = 0 <-> blank).
  { unfold blank. rewrite <- split_nil. apply length_zero_iff_nil. }
  split; [|split].
  - rewrite Hwc. split.
    + intros [= H]. now apply Hlen.
    + intros H. apply Hlen in H. now rewrite H.
  - intros Hu. rewrite Hd.
    destruct (str_eqb_spec (_src_type a) (lit "url")) as [|_]; [contradiction|].
    unfold blank. rewrite <- tokens_nil. unfold len_set. split.
    + intros [= H]. destruct (tokens (_orig_content a)); [reflexivity|discriminate].
    + now intros ->.
  - intros Hb. pose proof Hb as Ht. apply tokens_nil in Ht.
    split; [|split].
    + rewrite Ha, Ht. now destruct (_src_type a == "url").
    + intros Hu minlen maxlen N cs.
      apply init_inv in Hi. destruct Hi as (_ & _ & _ & _ & Hk).
      unfold common_words, common_words_of. rewrite Hw, Ht.
      destruct Hk as [[Hk _]|[[Hk _]|[Hk _]]]; [| |contradiction];
        rewrite Hk; cbn; unfold most_common; now rewrite firstn_nil.
    + intros pos neg Hp Hn.
      rewrite (positivity_constructed _ _ _ _ Hi Hp Hn).
      apply Hlen in Hb. now rewrite Hb.
Qed.

Lemma blank_document_witness :
  __init__ example_world (lit "  ") None (lit "text") = Ok (inline (lit "  ")) /\
  let a := inline (lit "  ") in
  let blank := Forall (fun c => isspace c = true) (_orig_content a) in
  (word_count example_world a = Ok (Some 0, a) <-> blank) /\
  (_src_type a <> lit "url" -> (distinct_word_count a = Ok (Some 0) <-> blank)) /\
  (blank ->
   avg_word_length a = Ok (S754_zero false, a) /\
   (_src_type a <> lit "url" ->
    forall minlen maxlen N cs, common_words minlen maxlen N cs a = Ok (Some [])) /\
   (forall pos neg,
      files example_world (lit "fca/positive.txt") = Some pos ->
      files example_world (lit "fca/negative.txt") = Some neg ->
      positivity example_world a = Ok (PyInt 0, a))).
Proof.
  split; [reflexivity|].
  apply (@blank_document example_world (lit "  ") None (lit "text") (inline (lit "  "))).
  reflexivity.
Defined.

(** ** The working content *)

(** The statistics read the content fetched at construction, never the
    working content: whatever string was assigned to it since, each of them
    gives the result it gives on the instance as constructed. *)
Theorem working_content_unread (w : World) (s : str) (oc : option str) (st : str)
    (a : Analyzer) :
  __init__ w s oc st = Ok a ->
  forall (c : str) (w' : World) (minlen maxlen N : Z) (cs lo : bool),
  common_words minlen maxlen N cs (with_content (Some c) a)
  = common_words minlen maxlen N cs a /\
  char_distribution w' cs lo (with_content (Some c) a) = char_distribution w' cs lo a /\
  distinct_word_count (with_content (Some c) a) = distinct_word_count a /\
  word_count w' (with_content (Some c) a) = word_count w' a /\
  value (avg_word_length (with_content (Some c) a)) = value (avg_word_length a) /\
  positivity w' (with_content (Some c) a) = positivity w' a.
Proof.
  intros Hi c w' minlen maxlen N cs lo.
  apply init_inv in Hi. destruct Hi as (_ & _ & _ & Hc & Hk).
  destruct a as [sr sty kty co orig tx].
  cbn [_src_type _content _orig_content] in Hc, Hk. subst co.
  assert (Hwc : word_count w'
                  (with_content (Some c)
                     {| src := sr; src_type := sty; _src_type := kty;
                        _content := Some orig; _orig_content := orig; text := tx |})
                = word_count w'
                    {| src := sr; src_type := sty; _src_type := kty;
                       _content := Some orig; _orig_content := orig; text := tx |}).
  { unfold word_count, bind, self, set_content, lift, len_words, with_content,
      _fetch_from_url, _words.
    rewrite ?read_from_file_eq. unfold read_file. fields.
    destruct Hk as [[Hk _]|[[Hk _]|[Hk _]]]; subst kty; kind_eval; cbv iota.
    - reflexivity.
    - now destruct (files w' sr).
    - now destruct (web w' sr). }
  repeat split.
  - exact Hwc.
  - unfold avg_word_length, bind, self, set_content, ret, with_content, _words, value.
    fields. destruct (kty == "text"); fields.
    + now destruct (map (fun word => lower (strip punctuation word)) (split orig)).
    + destruct (kty == "path");
        now destruct (map (fun word => lower (strip punctuation word)) (split orig)).
  - unfold with_content in Hwc.
    cbn [src src_type _src_type _content _orig_content text] in Hwc.
    unfold positivity, bind, lift, self, open_file, read_file.
    destruct (files w' (lit "fca/positive.txt"));
      destruct (unreadable w' (lit "fca/positive.txt"));
      destruct (files w' (lit "fca/negative.txt"));
      destruct (unreadable w' (lit "fca/negative.txt"));
      try reflexivity;
      unfold _words, with_content; fields; cbv beta iota; now rewrite Hwc.
Qed.

Lemma working_content_unread_witness :
  __init__ example_world (lit "Casey hit the ball. Casey ran.") None (lit "text")
  = Ok casey /\
  forall (c : str) (w' : World) (minlen maxlen N : Z) (cs lo : bool),
  common_words minlen maxlen N cs (with_content (Some c) casey)
  = common_words minlen maxlen N cs casey /\
  char_distribution w' cs lo (with_content (Some c) casey)
  = char_distribution w' cs lo casey /\
  distinct_word_count (with_content (Some c) casey) = distinct_word_count casey /\
  word_count w' (with_content (Some c) casey) = word_count w' casey /\
  value (avg_word_length (with_content (Some c) casey)) = value (avg_word_length casey) /\
  positivity w' (with_content (Some c) casey) = positivity w' casey.
Proof.
  split; [reflexivity|].
  apply (@working_content_unread example_world
           (lit "Casey hit the ball. Casey ran.") None (lit "text") casey).
  reflexivity.
Defined.

(** [word_count] reads a file or a page again, and counts the content of
    the construction all the same: when the source cannot be read any more
    it raises what the reading raises, and otherwise it returns the number
    of fragments of the content fetched at construction, whatever the
    source holds now, and stores what it has read as working content. *)
Theorem word_count_rereads (w : World) (s : str) (oc : option str) (st : str)
    (a : Analyzer) :
  __init__ w s oc st = Ok a ->
  forall w' : World,
  let n := length (split (_orig_content a)) in
  (_src_type a = lit "text" -> word_count w' a = Ok (Some n, a)) /\
  (_src_type a = lit "path" ->
   word_count w' a = match files w' (src a) with
                     | Some now => Ok (Some n, with_content (Some now) a)
                     | None => Raise (raised (unreadable w' (src a)))
                     end) /\
  (_src_type a = lit "url" ->
   word_count w' a = match web w' (src a) with
                     | Some now => Ok (Some n, with_content (Some now) a)
                     | None => Raise (unreachable w' (src a))
                     end).
Proof.
  intros Hi w' n. subst n.
  apply init_inv in Hi. destruct Hi as (_ & _ & _ & Hc & _).
  destruct a as [sr sty kty co orig tx].
  cbn [_src_type _content _orig_content src] in *. subst co.
  unfold word_count, bind, self, set_content, lift, len_words, with_content,
    _fetch_from_url, _words.
  rewrite ?read_from_file_eq. unfold read_file. fields.
  repeat split; intros ->; kind_eval; cbv beta iota.
  - fields. now rewrite length_map.
  - destruct (files w' sr); [|reflexivity]. fields. now rewrite length_map.
  - destruct (web w' sr); [|reflexivity]. fields. now rewrite length_map.
Qed.

Lemma word_count_rereads_witness :
  __init__ example_world (lit "abb.txt") None (lit "path")
  = Ok (from_file (lit "abb.txt") (lit "abb")) /\
  forall w' : World,
  let a := from_file (lit "abb.txt") (lit "abb") in
  let n := length (split (_orig_content a)) in
  (_src_type a = lit "text" -> word_count w' a = Ok (Some n, a)) /\
  (_src_type a = lit "path" ->
   word_count w' a = match files w' (src a) with
                     | Some now => Ok (Some n, with_content (Some now) a)
                     | None => Raise (raised (unreadable w' (src a)))
                     end) /\
  (_src_type a = lit "url" ->
   word_count w' a = match web w' (src a) with
                     | Some now => Ok (Some n, with_content (Some now) a)
                     | None => Raise (unreachable w' (src a))
                     end).
Proof.
  split; [reflexivity|].
  apply (@word_count_rereads example_world (lit "abb.txt") None (lit "path")
           (from_file (lit "abb.txt") (lit "abb"))).
  reflexivity.
Defined.

(** ** The property [words] *)

(** For inline text [words] is the list of the tokens; for a file, in the
    world of the construction, it is a number, the one that
    [distinct_word_count] gives; for a remote page it is [None]. *)
Theorem words_by_kind (w : World) (s : str) (oc : option str) (st : str)
    (a : Analyzer) :
  __init__ w s oc st = Ok a ->
  (_src_type a = lit "text" ->
   words w a = Ok (Some (WordList (tokens (_orig_content a))), a)) /\
  (_src_type a = lit "path" ->
   exists d, distinct_word_count a = Ok (Some d) /\
             words w a = Ok (Some (WordNumber d), a)) /\
  (_src_type a = lit "url" -> words w a = Ok (None, a)).
Proof.
  intros Hi.
  pose proof (distinct_word_count_constructed _ _ _ _ Hi) as Hd.
  apply init_inv in Hi. destruct Hi as (Hs & _ & _ & Hc & Hk).
  destruct a as [sr sty kty co orig tx].
  cbn [_src_type _content _orig_content src] in *. subst co sr.
  unfold words, bind, self, set_content, lift, ret, with_content, _words.
  rewrite ?read_from_file_eq. unfold read_file. fields.
  repeat split; intros ->; kind_eval; cbv iota.
  - reflexivity.
  - destruct Hk as [[Hk _]|[[_ Hf]|[Hk _]]]; try discriminate.
    rewrite Hf. fields. eexists. split; [exact Hd|reflexivity].
  - reflexivity.
Qed.

Lemma words_by_kind_witness :
  __init__ example_world (lit "abb.txt") None (lit "path")
  = Ok (from_file (lit "abb.txt") (lit "abb")) /\
  let a := from_file (lit "abb.txt") (lit "abb") in
  (_src_type a = lit "text" ->
   words example_world a = Ok (Some (WordList (tokens (_orig_content a))), a)) /\
  (_src_type a = lit "path" ->
   exists d, distinct_word_count a = Ok (Some d) /\
             words example_world a = Ok (Some (WordNumber d), a)) /\
  (_src_type a = lit "url" -> words example_world a = Ok (None, a)).
Proof.
  split; [reflexivity|].
  apply (@words_by_kind example_world (lit "abb.txt") None (lit "path")
           (from_file (lit "abb.txt") (lit "abb"))).
  reflexivity.
Defined.

(** ** Tables *)

Section TableFacts.

Variable A : Type.
Variable eqb : A -> A -> bool.
Hypothesis eqb_spec : forall x y, reflect (x = y) (eqb x y).

Lemma total_incr x (d : list (A * nat)) : total (incr eqb x d) = S (total d).
Proof.
  unfold total. induction d as [|[y n] d IH]; simpl; [reflexivity|].
  destruct (eqb x y); simpl; [reflexivity|]. rewrite IH. lia.
Qed.

Lemma total_fold xs (d : list (A * nat)) :
  total (fold_left (fun d x => incr eqb x d) xs d) = total d + length xs.
Proof.
  revert d. induction xs as [|x xs IH]; intros d; simpl; [lia|].
  rewrite IH, total_incr. lia.
Qed.

(** The counts of a counter add up to the number of elements counted. *)
Lemma total_Counter xs : total (Counter eqb xs) = length xs.
Proof. unfold Counter. now rewrite total_fold. Qed.

Lemma total_perm (l l' : list (A * nat)) : Permutation l l' -> total l = total l'.
Proof.
  unfold total. induction 1; simpl; try lia.
Qed.

Lemma length_Counter xs : length (Counter eqb xs) = len_set eqb xs.
Proof.
  unfold len_set. rewrite <- (@keys_Counter _ _ eqb_spec). now rewrite length_map.
Qed.

Lemma occurrences_pos x xs : In x xs -> 1 <= occurrences eqb x xs.
Proof.
  unfold occurrences. induction xs as [|y xs IH]; simpl; [tauto|].
  intros [->|H].
  - destruct (eqb_spec x x); [simpl; lia|congruence].
  - destruct (eqb x y); simpl; [lia|now apply IH].
Qed.

Lemma NoDup_firstn n (l : list A) : NoDup l -> NoDup (firstn n l).
Proof.
  revert n. induction l as [|x l IH]; intros [|n] H; simpl; try constructor.
  - inversion H; subst. intros Hin. apply H2.
    rewrite <- (firstn_skipn n l). apply in_or_app. now left.
  - inversion H; subst. now apply IH.
Qed.

End TableFacts.

Lemma NoDup_map_on {A B} (f : A -> B) (l : list A) :
  (forall x y, In x l -> In y l -> f x = f y -> x = y) ->
  NoDup l -> NoDup (map f l).
Proof.
  induction l as [|x l IH]; intros Hinj Hnd; simpl; constructor.
  - inversion Hnd; subst. intros Hin. apply in_map_iff in Hin.
    destruct Hin as (y & Hy & Hin).
    assert (y = x) by (apply Hinj; [now right|now left|assumption]).
    subst. contradiction.
  - inversion Hnd; subst. apply IH; [|assumption].
    intros y z Hy Hz. apply Hinj; now right.
Qed.

Lemma filter_all {A} (p : A -> bool) (l : list A) :
  Forall (fun x => p x = true) l -> filter p l = l.
Proof.
  induction 1 as [|x l Hx _ IH]; simpl; [reflexivity|]. now rewrite Hx, IH.
Qed.

(** ** More on [char_distribution] *)

Lemma char_distribution_inline_witness :
  __init__ example_world (lit "abb") None (lit "text") = Ok (inline (lit "abb")) /\
  _src_type (inline (lit "abb")) = lit "text" /\
  let stream := characters (_orig_content (inline (lit "abb"))) false false in
  exists l, char_distribution example_world false false (inline (lit "abb")) = Ok (Some l) /\
    descending snd l /\
    NoDup (map fst l) /\
    (forall c n, In (c, n) l -> n = occurrences Ascii.eqb c stream /\ In c stream) /\
    (forall x y, before x y l -> snd x = snd y ->
       first_index Ascii.eqb (fst x) stream < first_index Ascii.eqb (fst y) stream).
Proof.
  split; [reflexivity|]. split; [reflexivity|].
  apply (@char_distribution_inline example_world (lit "abb") None (lit "text")
           (inline (lit "abb")) false false); reflexivity.
Defined.

(** On inline text the counts of the distribution add up to the number of
    characters counted, and there is one entry for each distinct character:
    the distribution is empty exactly when no character is counted. *)
Theorem char_distribution_inline_total (w : World) (s : str) (oc : option str)
    (st : str) (a : Analyzer) (cs lo : bool) :
  __init__ w s oc st = Ok a -> _src_type a = lit "text" ->
  let stream := characters (_orig_content a) cs lo in
  exists l, char_distribution w cs lo a = Ok (Some l) /\
    total l = length stream /\
    length l = len_set Ascii.eqb stream /\
    (l = [] <-> stream = []).
Proof.
  intros _ Hk stream.
  assert (Hcd : char_distribution w cs lo a
                = Ok (Some (sorted_rev Nat.ltb snd (Counter Ascii.eqb stream)))).
  { unfold char_distribution. rewrite Hk. reflexivity. }
  rewrite Hcd. eexists. split; [reflexivity|].
  pose proof (sort_perm snd (Counter Ascii.eqb stream)) as Hp.
  assert (Hlen : length (sorted_rev Nat.ltb snd (Counter Ascii.eqb stream))
                 = len_set Ascii.eqb stream).
  { rewrite (Permutation_length Hp). apply (@length_Counter _ _ Ascii.eqb_spec). }
  split; [|split; [exact Hlen|]].
  - rewrite (total_perm Hp). apply total_Counter.
  - rewrite <- !length_zero_iff_nil, Hlen. unfold len_set.
    destruct stream; simpl; split; auto; discriminate.
Qed.

Lemma char_distribution_inline_total_witness :
  __init__ example_world (lit "abb") None (lit "text") = Ok (inline (lit "abb")) /\
  _src_type (inline (lit "abb")) = lit "text" /\
  let stream := characters (_orig_content (inline (lit "abb"))) false false in
  exists l, char_distribution example_world false false (inline (lit "abb")) = Ok (Some l) /\
    total l = length stream /\
    length l = len_set Ascii.eqb stream /\
    (l = [] <-> stream = []).
Proof.
  split; [reflexivity|]. split; [reflexivity|].
  apply (@char_distribution_inline_total example_world (lit "abb") None (lit "text")
           (inline (lit "abb")) false false); reflexivity.
Defined.

(** On a file [char_distribution] reads the file again: it raises what the
    reading raises when the file cannot be read, and otherwise returns a
    table of what the file holds now, one entry for each distinct character
    counted, in the order of first occurrence whatever the counts, each with
    its number of occurrences.  With [letters_only] set every character is counted, with
    [letters_only] unset the letters only. *)
Theorem char_distribution_on_file (w : World) (s : str) (oc : option str)
    (st : str) (a : Analyzer) :
  __init__ w s oc st = Ok a -> _src_type a = lit "path" ->
  forall (w' : World) (cs lo : bool),
  match files w' (src a) with
  | None => char_distribution w' cs lo a = Raise (raised (unreadable w' (src a)))
  | Some now =>
      let stream := file_characters now cs lo in
      exists l, char_distribution w' cs lo a = Ok (Some l) /\
        map fst l = uniq Ascii.eqb stream /\
        (forall c n, In (c, n) l -> n = occurrences Ascii.eqb c stream) /\
        total l = length stream /\
        (lo = true -> stream = if cs then now else lower now) /\
        (lo = false -> Forall (fun c => isalpha c = true) stream)
  end.
Proof.
  intros _ Hk w' cs lo.
  destruct (files w' (src a)) as [now|] eqn:Hf.
  - intros stream. rewrite (char_distribution_file _ _ cs lo Hk Hf).
    fold (file_characters now cs lo). fold stream.
    eexists. split; [reflexivity|]. split; [|split; [|split; [|split]]].
    + apply (@keys_Counter _ _ Ascii.eqb_spec).
    + intros c n Hin. now apply (@Counter_count _ _ Ascii.eqb_spec) in Hin.
    + apply total_Counter.
    + intros ->. unfold stream, file_characters. cbn [orb].
      apply filter_all. now apply Forall_forall.
    + intros ->. unfold stream, file_characters. cbn [orb].
      apply Forall_forall. intros c Hc. now apply filter_In in Hc.
  - unfold char_distribution. rewrite read_from_file_eq. unfold read_file.
    rewrite Hk, Hf. reflexivity.
Qed.

Lemma char_distribution_on_file_witness :
  __init__ example_world (lit "abb.txt") None (lit "path")
  = Ok (from_file (lit "abb.txt") (lit "abb")) /\
  _src_type (from_file (lit "abb.txt") (lit "abb")) = lit "path" /\
  forall (w' : World) (cs lo : bool),
  match files w' (src (from_file (lit "abb.txt") (lit "abb"))) with
  | None => char_distribution w' cs lo (from_file (lit "abb.txt") (lit "abb"))
            = Raise (raised (unreadable w' (src (from_file (lit "abb.txt") (lit "abb")))))
  | Some now =>
      let stream := file_characters now cs lo in
      exists l, char_distribution w' cs lo (from_file (lit "abb.txt") (lit "abb"))
                = Ok (Some l) /\
        map fst l = uniq Ascii.eqb stream /\
        (forall c n, In (c, n) l -> n = occurrences Ascii.eqb c stream) /\
        total l = length stream /\
        (lo = true -> stream = if cs then now else lower now) /\
        (lo = false -> Forall (fun c => isalpha c = true) stream)
  end.
Proof.
  split; [reflexivity|]. split; [reflexivity|].
  apply (@char_distribution_on_file example_world (lit "abb.txt") None (lit "path")
           (from_file (lit "abb.txt") (lit "abb"))); reflexivity.
Defined.

(** ** More on [common_words] *)

Lemma lower_upper_char c : isupper c = false -> lower_char (upper_char c) = c.
Proof.
  destruct c as [b0 b1 b2 b3 b4 b5 b6 b7].
  destruct b0, b1, b2, b3, b4, b5, b6, b7; intros H;
    first [reflexivity | discriminate H].
Qed.

Lemma islower_upper_char c : islower (upper_char c) = false.
Proof.
  destruct c as [b0 b1 b2 b3 b4 b5 b6 b7].
  destruct b0, b1, b2, b3, b4, b5, b6, b7; reflexivity.
Qed.

Lemma lower_upper s :
  Forall (fun c => isupper c = false) s -> lower (upper s) = s.
Proof.
  induction 1 as [|c s Hc _ IH]; simpl; [reflexivity|].
  rewrite (lower_upper_char _ Hc). f_equal. exact IH.
Qed.

Lemma tokens_no_upper content tok :
  In tok (tokens content) -> Forall (fun c => isupper c = false) tok.
Proof.
  unfold tokens. rewrite in_map_iff. intros (frag & <- & _).
  apply Forall_forall. intros c Hc. apply in_map_iff in Hc.
  destruct Hc as (d & <- & _). apply isupper_lower_char.
Qed.

Lemma total_map_fst {A B} (g : A -> B) (l : list (A * nat)) :
  total (map (fun '(x, n) => (g x, n)) l) = total l.
Proof.
  unfold total. induction l as [|[x n] l IH]; simpl; [reflexivity|]. now rewrite IH.
Qed.

Lemma common_words_unfold w s oc st a minlen maxlen N cs :
  __init__ w s oc st = Ok a -> _src_type a <> lit "url" ->
  common_words minlen maxlen N cs a =
  Ok (Some (map (fun '(word, freq) => (upper word, freq))
              (most_common N
                 (Counter str_eqb (in_range_tokens minlen maxlen (_orig_content a)))))).
Proof.
  intros Hi Hu. pose proof (words_constructed _ _ _ _ Hi) as Hw.
  apply init_inv in Hi. destruct Hi as (_ & _ & _ & _ & Hk).
  unfold common_words, common_words_of. rewrite Hw.
  destruct Hk as [[Hk _]|[[Hk _]|[Hk _]]]; [| |contradiction]; rewrite Hk; reflexivity.
Qed.

(** For inline text and for a file, the table of [common_words] has as
    many entries as asked for, or one for every distinct token of a length
    within the bounds when these are fewer; none when [count] is not
    positive or [minlen] exceeds [maxlen].  Every word is the uppercase form
    of a token within the bounds, and its count is the number of
    occurrences of that token in the document.  On ASCII text no word
    stands twice and no word holds a lowercase letter. *)
Theorem common_words_table (w : World) (s : str) (oc : option str) (st : str)
    (a : Analyzer) (minlen maxlen N : Z) (cs : bool) :
  __init__ w s oc st = Ok a -> _src_type a <> lit "url" ->
  let toks := tokens (_orig_content a) in
  let counted := in_range_tokens minlen maxlen (_orig_content a) in
  exists l, common_words minlen maxlen N cs a = Ok (Some l) /\
    length l = Nat.min (Z.to_nat N) (len_set str_eqb counted) /\
    ((N <= 0)%Z -> l = []) /\
    ((maxlen < minlen)%Z -> l = []) /\
    (forall W n, In (W, n) l ->
       exists t, W = upper t /\ In t toks /\
                 (minlen <= len t <= maxlen)%Z /\
                 n = occurrences str_eqb t toks /\ 1 <= n) /\
    (ascii_text (_orig_content a) ->
     NoDup (map fst l) /\
     Forall (fun e => Forall (fun c => islower c = false) (fst e)) l).
Proof.
  intros Hi Hu toks counted.
  rewrite (@common_words_unfold _ _ _ _ _ minlen maxlen N cs Hi Hu). fold counted.
  set (S := sorted_rev Nat.ltb snd (Counter str_eqb counted)).
  assert (Hp : Permutation S (Counter str_eqb counted)) by apply sort_perm.
  assert (HinS : forall t n, In (t, n) (most_common N (Counter str_eqb counted)) ->
                 In t counted /\ n = occurrences str_eqb t counted).
  { intros t n Hin. unfold most_common in Hin. fold S in Hin.
    assert (H : In (t, n) S)
      by (rewrite <- (firstn_skipn (Z.to_nat N) S); apply in_or_app; now left).
    apply (Permutation_in _ Hp) in H.
    apply (@Counter_count _ _ str_eqb_spec) in H. tauto. }
  assert (Hlen : length (map (fun '(word, freq) => (upper word, freq))
                   (most_common N (Counter str_eqb counted)))
                 = Nat.min (Z.to_nat N) (len_set str_eqb counted)).
  { rewrite length_map. unfold most_common. fold S.
    rewrite length_firstn, (Permutation_length Hp).
    now rewrite (@length_Counter _ _ str_eqb_spec). }
  eexists. split; [reflexivity|]. split; [exact Hlen|].
  split; [|split; [|split; [|intros _; split]]].
  - intros HN. apply length_zero_iff_nil. rewrite Hlen.
    replace (Z.to_nat N) with 0 by lia. reflexivity.
  - intros Hm. apply length_zero_iff_nil. rewrite Hlen.
    assert (Hc : counted = []).
    { unfold counted, in_range_tokens.
      induction (tokens (_orig_content a)) as [|t l IH]; simpl; [reflexivity|].
      destruct (Z.leb_spec minlen (len t)), (Z.leb_spec (len t) maxlen);
        simpl; auto; lia. }
    rewrite Hc. apply Nat.min_0_r.
  - intros W n Hin. apply in_map_iff in Hin.
    destruct Hin as ([t m] & Heq & Hin). injection Heq as <- <-.
    apply HinS in Hin. destruct Hin as [Ht ->].
    pose proof Ht as Hr. unfold counted, in_range_tokens in Hr.
    apply filter_In in Hr. destruct Hr as [Htok Hr].
    apply andb_true_iff in Hr.
    exists t. split; [reflexivity|]. split; [exact Htok|]. split; [lia|]. split.
    + unfold occurrences, counted, in_range_tokens. f_equal.
      apply filter_filter_absorb. intros y Hy.
      apply str_eqb_eq in Hy. subst y. now apply andb_true_iff.
    + now apply (@occurrences_pos _ _ str_eqb_spec).
  - rewrite map_map.
    rewrite (map_ext _ (fun e => upper (fst e))) by (now intros [x n]).
    rewrite <- (map_map fst upper).
    apply NoDup_map_on.
    + intros x y Hx Hy Heq.
      apply in_map_iff in Hx, Hy.
      destruct Hx as ([x' n] & <- & Hx), Hy as ([y' m] & <- & Hy). simpl in *.
      apply HinS in Hx, Hy. destruct Hx as [Hx _], Hy as [Hy _].
      apply filter_In in Hx, Hy. destruct Hx as [Hx _], Hy as [Hy _].
      apply tokens_no_upper in Hx, Hy.
      rewrite <- (lower_upper Hx), <- (lower_upper Hy). now rewrite Heq.
    + unfold most_common. fold S. rewrite <- firstn_map.
      apply NoDup_firstn.
      apply (Permutation_NoDup (Permutation_map fst (Permutation_sym Hp))).
      rewrite (@keys_Counter _ _ str_eqb_spec). apply (@NoDup_uniq _ _ str_eqb_spec).
  - rewrite Forall_forall. intros [W n] Hin. apply in_map_iff in Hin.
    destruct Hin as ([t m] & Heq & _). injection Heq as <- <-. simpl.
    apply Forall_forall. intros c Hc. apply in_map_iff in Hc.
    destruct Hc as (d & <- & _). apply islower_upper_char.
Qed.

Lemma common_words_table_witness :
  __init__ example_world (lit "Casey hit the ball. Casey ran.") None (lit "text")
  = Ok casey /\
  _src_type casey <> lit "url" /\
  let toks := tokens (_orig_content casey) in
  let counted := in_range_tokens 1 100 (_orig_content casey) in
  exists l, common_words 1 100 3 false casey = Ok (Some l) /\
    length l = Nat.min (Z.to_nat 3) (len_set str_eqb counted) /\
    ((3 <= 0)%Z -> l = []) /\
    ((100 < 1)%Z -> l = []) /\
    (forall W n, In (W, n) l ->
       exists t, W = upper t /\ In t toks /\
                 (1 <= len t <= 100)%Z /\
                 n = occurrences str_eqb t toks /\ 1 <= n) /\
    (ascii_text (_orig_content casey) ->
     NoDup (map fst l) /\
     Forall (fun e => Forall (fun c => islower c = false) (fst e)) l).
Proof.
  assert (Hu : _src_type casey <> lit "url") by (vm_compute; discriminate).
  split; [reflexivity|]. split; [exact Hu|].
  apply (@common_words_table example_world
           (lit "Casey hit the ball. Casey ran.") None (lit "text") casey
           1 100 3 false); [reflexivity|exact Hu].
Defined.

(** When the bounds admit every token and [count] is at least the number
    of distinct tokens, [common_words] accounts for the whole document: it
    has [distinct_word_count] entries and its counts add up to
    [word_count]. *)
Theorem common_words_covers (w : World) (s : str) (oc : option str) (st : str)
    (a : Analyzer) (minlen maxlen N : Z) (cs : bool) :
  __init__ w s oc st = Ok a -> _src_type a <> lit "url" ->
  Forall (fun t => (minlen <= len t <= maxlen)%Z) (tokens (_orig_content a)) ->
  (Z.of_nat (len_set str_eqb (tokens (_orig_content a))) <= N)%Z ->
  exists l n d,
    common_words minlen maxlen N cs a = Ok (Some l) /\
    word_count w a = Ok (Some n, a) /\
    distinct_word_count a = Ok (Some d) /\
    length l = d /\ total l = n.
Proof.
  intros Hi Hu Hall HN.
  rewrite (@common_words_unfold _ _ _ _ _ minlen maxlen N cs Hi Hu).
  rewrite (word_count_constructed _ _ _ _ Hi).
  rewrite (distinct_word_count_constructed _ _ _ _ Hi).
  destruct (str_eqb_spec (_src_type a) (lit "url")) as [|_]; [contradiction|].
  assert (Hc : in_range_tokens minlen maxlen (_orig_content a)
               = tokens (_orig_content a)).
  { unfold in_range_tokens. apply filter_all.
    rewrite Forall_forall in Hall |- *. intros t Ht. specialize (Hall t Ht).
    apply andb_true_iff. lia. }
  rewrite Hc.
  set (toks := tokens (_orig_content a)) in *.
  set (S := sorted_rev Nat.ltb snd (Counter str_eqb toks)).
  assert (Hp : Permutation S (Counter str_eqb toks)) by apply sort_perm.
  assert (Hlen : length S = len_set str_eqb toks).
  { rewrite (Permutation_length Hp). apply (@length_Counter _ _ str_eqb_spec). }
  assert (Hall' : most_common N (Counter str_eqb toks) = S).
  { unfold most_common. fold S. apply firstn_all2. lia. }
  do 3 eexists. split; [reflexivity|]. split; [reflexivity|].
  split; [reflexivity|]. rewrite Hall'. split.
  - now rewrite length_map.
  - rewrite total_map_fst, (total_perm Hp), total_Counter.
    unfold toks. apply length_tokens.
Qed.

Lemma common_words_covers_witness :
  __init__ example_world (lit "Casey hit the ball. Casey ran.") None (lit "text")
  = Ok casey /\
  _src_type casey <> lit "url" /\
  Forall (fun t => (1 <= len t <= 100)%Z) (tokens (_orig_content casey)) /\
  (Z.of_nat (len_set str_eqb (tokens (_orig_content casey))) <= 10)%Z /\
  exists l n d,
    common_words 1 100 10 false casey = Ok (Some l) /\
    word_count example_world casey = Ok (Some n, casey) /\
    distinct_word_count casey = Ok (Some d) /\
    length l = d /\ total l = n.
Proof.
  assert (Hu : _src_type casey <> lit "url") by (vm_compute; discriminate).
  assert (Hall : Forall (fun t => (1 <= len t <= 100)%Z) (tokens (_orig_content casey))).
  { vm_compute. repeat constructor; discriminate. }
  assert (HN : (Z.of_nat (len_set str_eqb (tokens (_orig_content casey))) <= 10)%Z).
  { vm_compute. discriminate. }
  split; [reflexivity|]. split; [exact Hu|]. split; [exact Hall|]. split; [exact HN|].
  apply (@common_words_covers example_world
           (lit "Casey hit the ball. Casey ran.") None (lit "text") casey
           1 100 10 false); [reflexivity|exact Hu|exact Hall|exact HN].
Defined.





(** ** [_distinct_word_count] *)





Example distinct_counts_differ :
  _distinct_word_count true (inline (lit "Don't stop, don't")) = Ok 4 /\
  _distinct_word_count false (inline (lit "Don't stop, don't")) = Ok 3 /\
  distinct_word_count (inline (lit "Don't stop, don't")) = Ok (Some 2).
Proof. repeat split; reflexivity. Qed.

(** ** More on [positivity] *)

(** Whatever the two word lists hold, [positivity] is the number of tokens
    in the positive list, minus the number of tokens in the negative list
    and not in the positive one, divided by [word_count], times 1000; it
    equals [0] when no token is in either list. *)
Theorem positivity_any_lists (w : World) (s : str) (oc : option str) (st : str)
    (a : Analyzer) (pos neg : str) :
  __init__ w s oc st = Ok a ->
  files w (lit "fca/positive.txt") = Some pos ->
  files w (lit "fca/negative.txt") = Some neg ->
  let toks := tokens (_orig_content a) in
  let P := hits (lexicon pos) toks in
  let N := hits (lexicon neg)
             (filter (fun word => negb (contains str_eqb word (lexicon pos))) toks) in
  let n := length (split (_orig_content a)) in
  exists v, positivity w a = Ok (v, a) /\
    (n = 0 -> v = PyInt 0) /\
    (0 < n -> v = PyFloat (fmul_int (truediv (P - N) (Z.of_nat n)) 1000)) /\
    (Forall (fun t => contains str_eqb t (lexicon pos) = false /\
                      contains str_eqb t (lexicon neg) = false) toks ->
     eq_zero v = true).
Proof.
  intros Hi Hp Hn toks P N n.
  rewrite (positivity_constructed _ _ _ _ Hi Hp Hn).
  fold toks. fold n. rewrite tally_hits_overlap. fold P. fold N.
  eexists. split; [reflexivity|].
  destruct (Z.ltb_spec 0 (Z.of_nat n)) as [Hpos|Hz].
  - split; [lia|]. split; [reflexivity|].
    intros Hnone.
    assert (HP : P = 0%Z /\ N = 0%Z).
    { unfold P, N, hits. clear -Hnone.
      induction Hnone as [|t l [H1 H2] _ IH]; [split; reflexivity|].
      cbn [filter]. rewrite H1. cbn [negb filter]. rewrite H2. exact IH. }
    destruct HP as [-> ->]. apply zero_score. lia.
  - split; [reflexivity|]. split; [lia|]. reflexivity.
Qed.

Lemma positivity_any_lists_witness :
  __init__ example_world (lit "http://example.org") None (lit "url") = Ok example_page /\
  files example_world (lit "fca/positive.txt") = Some (lit "good fine") /\
  files example_world (lit "fca/negative.txt") = Some (lit "bad poor") /\
  let pos := lit "good fine" in
  let neg := lit "bad poor" in
  let toks := tokens (_orig_content example_page) in
  let P := hits (lexicon pos) toks in
  let N := hits (lexicon neg)
             (filter (fun word => negb (contains str_eqb word (lexicon pos))) toks) in
  let n := length (split (_orig_content example_page)) in
  exists v, positivity example_world example_page = Ok (v, example_page) /\
    (n = 0 -> v = PyInt 0) /\
    (0 < n -> v = PyFloat (fmul_int (truediv (P - N) (Z.of_nat n)) 1000)) /\
    (Forall (fun t => contains str_eqb t (lexicon pos) = false /\
                      contains str_eqb t (lexicon neg) = false) toks ->
     eq_zero v = true).
Proof.
  split; [reflexivity|]. split; [reflexivity|]. split; [reflexivity|].
  apply (@positivity_any_lists example_world (lit "http://example.org") None
           (lit "url") example_page (lit "good fine") (lit "bad poor"));
    reflexivity.
Defined.

(** [positivity] opens the two word lists, the positive one first, and
    then reads them in that order, before anything else; the first of these
    four steps that fails decides the exception, whatever the instance.  So
    a negative list that cannot be opened is reported even when the positive
    list, which was opened before, could not be read. *)
Theorem positivity_unreadable_list (w : World) (a : Analyzer) (e : exn) :
  let pos := lit "fca/positive.txt" in
  let neg := lit "fca/negative.txt" in
  (files w pos = None /\ unreadable w pos = AtOpen e) \/
  (opens w pos /\ files w neg = None /\ unreadable w neg = AtOpen e) \/
  (opens w neg /\ files w pos = None /\ unreadable w pos = AtRead e) \/
  (files w pos <> None /\ files w neg = None /\ unreadable w neg = AtRead e) ->
  positivity w a = Raise e.
Proof.
  intros pos neg. unfold positivity, bind, lift, open_file, read_file, opens.
  fold pos. fold neg.
  intros [(Hp & Hup)|[(Hop & Hn & Hun)|[(Hon & Hp & Hup)|(Hp & Hn & Hun)]]].
  - now rewrite Hp, Hup.
  - rewrite Hn, Hun. destruct Hop as [Hop|[e' Hop]].
    + destruct (files w pos); [reflexivity|contradiction].
    + rewrite Hop. now destruct (files w pos).
  - rewrite Hp, Hup. destruct Hon as [Hon|[e' Hon]].
    + destruct (files w neg); [reflexivity|contradiction].
    + rewrite Hon. now destruct (files w neg).
  - rewrite Hn, Hun. destruct (files w pos); [reflexivity|contradiction].
Qed.

Lemma positivity_unreadable_list_witness :
  let pos := lit "fca/positive.txt" in
  let neg := lit "fca/negative.txt" in
  ((files broken_lists pos = None /\ unreadable broken_lists pos = AtOpen OSError) \/
   (opens broken_lists pos /\ files broken_lists neg = None /\
    unreadable broken_lists neg = AtOpen OSError) \/
   (opens broken_lists neg /\ files broken_lists pos = None /\
    unreadable broken_lists pos = AtRead OSError) \/
   (files broken_lists pos <> None /\ files broken_lists neg = None /\
    unreadable broken_lists neg = AtRead OSError)) /\
  positivity broken_lists casey = Raise OSError.
Proof.
  intros pos neg.
  assert (H : (files broken_lists pos = None /\
               unreadable broken_lists pos = AtOpen OSError) \/
              (opens broken_lists pos /\ files broken_lists neg = None /\
               unreadable broken_lists neg = AtOpen OSError) \/
              (opens broken_lists neg /\ files broken_lists pos = None /\
               unreadable broken_lists pos = AtRead OSError) \/
              (files broken_lists pos <> None /\ files broken_lists neg = None /\
               unreadable broken_lists neg = AtRead OSError)).
  { right. left. split; [|split; reflexivity].
    right. exists UnicodeDecodeError. reflexivity. }
  split; [exact H|]. exact (@positivity_unreadable_list broken_lists casey OSError H).
Defined.

(** ** The plotting methods *)

Lemma combine_fst_snd {A B} (l : list (A * B)) : combine (map fst l) (map snd l) = l.
Proof. induction l as [|[x y] l IH]; simpl; [reflexivity|]. now rewrite IH. Qed.

Lemma common_words_length w s oc st a minlen maxlen N cs :
  __init__ w s oc st = Ok a -> _src_type a <> lit "url" ->
  exists l, common_words minlen maxlen N cs a = Ok (Some l) /\
    length l = Nat.min (Z.to_nat N)
                 (len_set str_eqb (in_range_tokens minlen maxlen (_orig_content a))).
Proof.
  intros Hi Hu.
  rewrite (@common_words_unfold _ _ _ _ _ minlen maxlen N cs Hi Hu).
  eexists. split; [reflexivity|].
  rewrite length_map. unfold most_common.
  rewrite length_firstn, (Permutation_length (sort_perm snd _)).
  now rewrite (@length_Counter _ _ str_eqb_spec).
Qed.

(** [plot_common_words] never raises on a constructed instance.  It prints
    that there is no content exactly when the source is a remote page,
    [count] is not positive or no token has a length within the bounds;
    otherwise it draws the table of [common_words], one bar for each entry
    and at most [count] of them, whatever [casesensitive] is. *)
Theorem plot_common_words_shows (w : World) (s : str) (oc : option str) (st : str)
    (a : Analyzer) (minlen maxlen N : Z) (cs : bool) :
  __init__ w s oc st = Ok a ->
  exists out, plot_common_words minlen maxlen N cs a = Ok out /\
    (out = Print (lit "No content available to plot.") <->
     _src_type a = lit "url" \/ (N <= 0)%Z \/
     in_range_tokens minlen maxlen (_orig_content a) = []) /\
    (forall labels values x y t, out = Bar labels values x y t ->
       length labels = length values /\
       (Z.of_nat (length labels) <= N)%Z /\
       common_words minlen maxlen N cs a = Ok (Some (combine labels values))).
Proof.
  intros Hi. unfold plot_common_words.
  destruct (str_eqb_spec (_src_type a) (lit "url")) as [Hu|Hu].
  - unfold common_words. rewrite Hu. cbn.
    eexists. split; [reflexivity|]. split; [tauto|]. discriminate.
  - destruct (@common_words_length _ _ _ _ _ minlen maxlen N false Hi Hu)
      as (l & Hl & Hlen).
    assert (Hcs : common_words minlen maxlen N cs a = Ok (Some l)) by exact Hl.
    rewrite Hl.
    assert (Hz : len_set str_eqb (in_range_tokens minlen maxlen (_orig_content a)) = 0
                 <-> in_range_tokens minlen maxlen (_orig_content a) = []).
    { unfold len_set.
      destruct (in_range_tokens minlen maxlen (_orig_content a));
        simpl; split; auto; discriminate. }
    destruct l as [|item items].
    + eexists. split; [reflexivity|]. split; [|discriminate].
      split; [|reflexivity]. intros _. right. simpl in Hlen.
      destruct (Z.to_nat N) eqn:HN; [left; lia|right].
      apply Hz. destruct (len_set str_eqb _); [reflexivity|discriminate].
    + eexists. split; [reflexivity|]. split.
      * split; [discriminate|]. intros [H|[H|H]]; [contradiction| |].
        -- replace (Z.to_nat N) with 0 in Hlen by lia. discriminate.
        -- apply Hz in H. rewrite H, Nat.min_0_r in Hlen. discriminate.
      * intros labels values x y t [= <- <- _ _ _].
        change (fst item :: map fst items) with (map fst (item :: items)).
        change (snd item :: map snd items) with (map snd (item :: items)).
        rewrite !length_map. split; [reflexivity|]. split.
        { cbn [length] in Hlen |- *. lia. }
        now rewrite combine_fst_snd.
Qed.

Lemma plot_common_words_shows_witness :
  __init__ example_world (lit "Casey hit the ball. Casey ran.") None (lit "text")
  = Ok casey /\
  exists out, plot_common_words 1 100 3 true casey = Ok out /\
    (out = Print (lit "No content available to plot.") <->
     _src_type casey = lit "url" \/ (3 <= 0)%Z \/
     in_range_tokens 1 100 (_orig_content casey) = []) /\
    (forall labels values x y t, out = Bar labels values x y t ->
       length labels = length values /\
       (Z.of_nat (length labels) <= 3)%Z /\
       common_words 1 100 3 true casey = Ok (Some (combine labels values))).
Proof.
  split; [reflexivity|].
  apply (@plot_common_words_shows example_world
           (lit "Casey hit the ball. Casey ran.") None (lit "text") casey
           1 100 3 true).
  reflexivity.
Defined.



(** ** The analysis script *)

Lemma once_bound {A} (l : list (A * nat)) :
  Forall (fun e => 1 <= snd e) l ->
  length (filter (fun '(x, n) => n =? 1) l) <= length l /\
  2 * length l <= total l + length (filter (fun '(x, n) => n =? 1) l).
Proof.
  unfold total. induction 1 as [|[x n] l Hn _ [IH1 IH2]]; simpl; [lia|].
  simpl in Hn. destruct (Nat.eqb_spec n 1); simpl; lia.
Qed.

(** The number of words used once is at most [distinct_word_count], and
    every other distinct word is used at least twice: twice the number of
    distinct words is at most [word_count] plus the number of words used
    once. *)
Theorem words_used_once_bounds (w : World) (s : str) (oc : option str) (st : str)
    (a : Analyzer) :
  __init__ w s oc st = Ok a ->
  let d := len_set str_eqb (tokens (_orig_content a)) in
  let n := length (split (_orig_content a)) in
  exists once, num_words_used_once a = Ok once /\
    word_count w a = Ok (Some n, a) /\
    once <= d /\ 2 * d <= n + once.
Proof.
  intros Hi d n. unfold num_words_used_once.
  rewrite (words_constructed _ _ _ _ Hi).
  eexists. split; [reflexivity|].
  split; [exact (word_count_constructed _ _ _ _ Hi)|].
  set (toks := tokens (_orig_content a)) in *.
  assert (Hall : Forall (fun e => 1 <= snd e) (Counter str_eqb toks)).
  { apply Forall_forall. intros [t m] Hin.
    apply (@Counter_count _ _ str_eqb_spec) in Hin. destruct Hin as [-> Hin].
    now apply (@occurrences_pos _ _ str_eqb_spec). }
  destruct (once_bound Hall) as [H1 H2].
  rewrite (@length_Counter _ _ str_eqb_spec), total_Counter in *.
  fold d in H1, H2. unfold toks in H2. rewrite length_tokens in H2.
  fold n in H2. split; assumption.
Qed.

Lemma words_used_once_bounds_witness :
  __init__ example_world (lit "Casey hit the ball. Casey ran.") None (lit "text")
  = Ok casey /\
  let d := len_set str_eqb (tokens (_orig_content casey)) in
  let n := length (split (_orig_content casey)) in
  exists once, num_words_used_once casey = Ok once /\
    word_count example_world casey = Ok (Some n, casey) /\
    once <= d /\ 2 * d <= n + once.
Proof.
  split; [reflexivity|].
  apply (@words_used_once_bounds example_world
           (lit "Casey hit the ball. Casey ran.") None (lit "text") casey).
  reflexivity.
Defined.

Lemma runs_from_map sep (f : ascii -> ascii) cur s :
  (forall c, sep c = false -> f c = c) ->
  (forall c, sep c = true -> sep (f c) = true) ->
  runs_from sep cur (map f s) = runs_from sep cur s.
Proof.
  intros Hkeep Hsep. revert cur.
  induction s as [|c s IH]; intros cur; simpl; [reflexivity|].
  destruct (sep c) eqn:Hc.
  - rewrite (Hsep _ Hc). destruct cur; now rewrite IH.
  - rewrite (Hkeep _ Hc), Hc. apply IH.
Qed.

(** The substitution of spaces for punctuation changes no word that the
    regular expression finds: the number of distinct short words with a
    capital A is the same without it. *)
Theorem sub_punctuation_redundant (text : str) :
  findall_words (sub_punctuation text) = findall_words text /\
  num_distinct_words text
  = len_set str_eqb (filter short_with_A (findall_words text)).
Proof.
  assert (H : findall_words (sub_punctuation text) = findall_words text).
  { unfold findall_words, sub_punctuation. apply runs_from_map.
    - intros c Hc. apply negb_false_iff in Hc. now rewrite Hc.
    - intros c Hc. apply negb_true_iff in Hc. rewrite Hc. simpl.
      destruct (isspace c); simpl; [now rewrite Hc|reflexivity]. }
  split; [exact H|]. unfold num_distinct_words. now rewrite H.
Qed.

(** ** The empty token *)

Section DistinctFacts.

Variable A : Type.
Variable eqb : A -> A -> bool.
Hypothesis eqb_spec : forall x y, reflect (x = y) (eqb x y).

Lemma uniq_filter (p : A -> bool) (l : list A) :
  uniq eqb (filter p l) = filter p (uniq eqb l).
Proof.
  induction l as [|x l IH]; simpl; [reflexivity|].
  destruct (p x) eqn:Hx; simpl.
  - rewrite ?Hx, IH. f_equal. rewrite !filter_filter_and.
    apply filter_ext. intros y. apply andb_comm.
  - rewrite ?Hx, IH. symmetry. apply filter_filter_absorb.
    intros y Hy. destruct (eqb_spec x y) as [->|]; [congruence|reflexivity].
Qed.

Lemma filter_eqb_NoDup x (l : list A) :
  NoDup l -> In x l -> length (filter (eqb x) l) = 1.
Proof.
  induction 1 as [|y l Hy Hnd IH]; simpl; [tauto|].
  intros [->|Hin].
  - destruct (eqb_spec x x); [|congruence]. simpl. f_equal.
    apply length_zero_iff_nil.
    destruct (filter (eqb x) l) as [|z k] eqn:Hf; [reflexivity|].
    assert (Hz : In z (filter (eqb x) l)) by (rewrite Hf; now left).
    apply filter_In in Hz. destruct Hz as [Hz He].
    destruct (eqb_spec x z); [subst; contradiction|discriminate].
  - destruct (eqb_spec x y) as [->|]; [contradiction|now apply IH].
Qed.

Lemma Counter_has x xs : In x xs -> In (x, occurrences eqb x xs) (Counter eqb xs).
Proof.
  intros Hin. apply (proj2 (@In_uniq _ _ eqb_spec x xs)) in Hin.
  rewrite <- (@keys_Counter _ _ eqb_spec) in Hin.
  apply in_map_iff in Hin. destruct Hin as ([y n] & Hy & Hin).
  simpl in Hy. subst y.
  destruct (@Counter_count _ _ eqb_spec _ _ _ Hin) as [-> _]. exact Hin.
Qed.

End DistinctFacts.

Lemma len_set_with_empty (toks : list str) :
  In [] toks ->
  len_set str_eqb toks = S (len_set str_eqb (filter nonempty toks)).
Proof.
  intros Hin. unfold len_set. rewrite (@uniq_filter _ _ str_eqb_spec).
  rewrite <- (filter_length nonempty (uniq str_eqb toks)).
  rewrite (filter_ext (fun t => negb (nonempty t)) (str_eqb []))
    by (intros [|c t]; reflexivity).
  rewrite (@filter_eqb_NoDup _ _ str_eqb_spec).
  - lia.
  - apply (@NoDup_uniq _ _ str_eqb_spec).
  - now apply (proj2 (@In_uniq _ _ str_eqb_spec [] toks)).
Qed.

(** C3, as the code has it.  The tokenizer keeps one token for every
    whitespace-delimited fragment: the fragment stripped of punctuation at
    both ends (and folded to lowercase unless [casesensitive] is set).  No
    fragment is empty, and a token is empty exactly when its fragment
    consists of punctuation only.  For inline text and for a file the
    statistics count an empty token like any other: [distinct_word_count]
    is one more than the number of distinct tokens that are not empty,
    [avg_word_length] divides the sum of the lengths by the number of all
    fragments, and [common_words], with bounds that admit the length 0 and
    a [count] of at least the number of distinct tokens, has an entry for
    the empty word with the number of its occurrences. *)
Theorem words_one_token_per_fragment (w : World) (s : str) (oc : option str)
    (st : str) (a : Analyzer) (cs : bool) :
  __init__ w s oc st = Ok a ->
  let frags := split (_orig_content a) in
  let toks := tokens (_orig_content a) in
  (exists ws, _words cs a = Some ws /\
     length ws = length frags /\
     Forall2 (fun frag tok =>
                frag <> [] /\
                tok = (if cs then strip punctuation frag
                       else lower (strip punctuation frag)) /\
                (tok = [] <-> Forall (fun c => ispunct c = true) frag))
             frags ws) /\
  (_src_type a <> lit "url" -> In [] toks ->
   distinct_word_count a
   = Ok (Some (S (len_set str_eqb (filter nonempty toks)))) /\
   avg_word_length a
   = Ok (round2 (truediv (fold_right Z.add 0%Z (map len toks))
                         (Z.of_nat (length frags))), a) /\
   forall (minlen maxlen N : Z) (cs' : bool),
     (minlen <= 0 <= maxlen)%Z ->
     (Z.of_nat (len_set str_eqb toks) <= N)%Z ->
     exists l, common_words minlen maxlen N cs' a = Ok (Some l) /\
       In ([], occurrences str_eqb [] toks) l /\
       1 <= occurrences str_eqb [] toks).
Proof.
  intros Hi frags toks. split.
  - pose proof Hi as Hi'.
    apply init_inv in Hi'. destruct Hi' as (_ & _ & _ & Hc & _).
    unfold _words. rewrite Hc.
    pose proof (split_nonempty (_orig_content a)) as Hne. fold frags in Hne |- *.
    destruct cs; simpl; eexists; (split; [reflexivity|]); (split; [apply length_map|]).
    + induction Hne as [|frag l Hf _ IH]; simpl; constructor; [|exact IH].
      split; [exact Hf|]. split; [reflexivity|]. apply strip_nil.
    + induction Hne as [|frag l Hf _ IH]; simpl; constructor; [|exact IH].
      split; [exact Hf|]. split; [reflexivity|].
      unfold ispunct. rewrite <- strip_nil. unfold lower.
      split; [apply map_eq_nil|intros ->; reflexivity].
  - intros Hu Hin. split; [|split].
    + rewrite (distinct_word_count_constructed _ _ _ _ Hi).
      destruct (str_eqb_spec (_src_type a) (lit "url")) as [|_]; [contradiction|].
      fold toks. now rewrite (len_set_with_empty toks Hin).
    + rewrite (avg_word_length_constructed _ _ _ _ Hi).
      destruct (str_eqb_spec (_src_type a) (lit "url")) as [|_]; [contradiction|].
      fold toks. unfold frags. rewrite <- length_tokens. fold toks.
      destruct toks; [contradiction|reflexivity].
    + intros minlen maxlen N cs' Hb HN.
      rewrite (@common_words_unfold _ _ _ _ _ minlen maxlen N cs' Hi Hu).
      set (counted := in_range_tokens minlen maxlen (_orig_content a)).
      assert (Hc : In [] counted).
      { unfold counted, in_range_tokens. apply filter_In. split; [exact Hin|].
        apply andb_true_iff. unfold len. simpl. lia. }
      assert (Hocc : occurrences str_eqb [] counted = occurrences str_eqb [] toks).
      { unfold occurrences, counted, in_range_tokens. f_equal.
        apply filter_filter_absorb. intros y Hy.
        apply str_eqb_eq in Hy. subst y. apply andb_true_iff.
        unfold len. simpl. lia. }
      assert (Hle : len_set str_eqb counted <= len_set str_eqb toks).
      { unfold len_set, counted, in_range_tokens.
        rewrite (@uniq_filter _ _ str_eqb_spec). apply filter_length_le. }
      set (S := sorted_rev Nat.ltb snd (Counter str_eqb counted)).
      assert (Hp : Permutation S (Counter str_eqb counted)) by apply sort_perm.
      assert (Hall : most_common N (Counter str_eqb counted) = S).
      { unfold most_common. fold S. apply firstn_all2.
        rewrite (Permutation_length Hp), (@length_Counter _ _ str_eqb_spec). lia. }
      eexists. split; [reflexivity|]. rewrite Hall. split.
      * apply in_map_iff. exists ([], occurrences str_eqb [] toks).
        split; [reflexivity|]. apply (Permutation_in _ (Permutation_sym Hp)).
        rewrite <- Hocc. now apply (@Counter_has _ _ str_eqb_spec).
      * now apply (@occurrences_pos _ _ str_eqb_spec).
Qed.

Lemma words_one_token_per_fragment_witness :
  let a := inline (lit "ab --") in
  let frags := split (_orig_content a) in
  let toks := tokens (_orig_content a) in
  __init__ example_world (lit "ab --") None (lit "text") = Ok a /\
  _src_type a <> lit "url" /\ In [] toks /\
  (0 <= 0 <= 100)%Z /\ (Z.of_nat (len_set str_eqb toks) <= 10)%Z /\
  (exists ws, _words false a = Some ws /\
     length ws = length frags /\
     Forall2 (fun frag tok =>
                frag <> [] /\
                tok = (if false then strip punctuation frag
                       else lower (strip punctuation frag)) /\
                (tok = [] <-> Forall (fun c => ispunct c = true) frag))
             frags ws) /\
  distinct_word_count a
  = Ok (Some (S (len_set str_eqb (filter nonempty toks)))) /\
  avg_word_length a
  = Ok (round2 (truediv (fold_right Z.add 0%Z (map len toks))
                        (Z.of_nat (length frags))), a) /\
  exists l, common_words 0 100 10 false a = Ok (Some l) /\
    In ([], occurrences str_eqb [] toks) l /\
    1 <= occurrences str_eqb [] toks.
Proof.
  intros a frags toks.
  assert (Hi : __init__ example_world (lit "ab --") None (lit "text") = Ok a)
    by reflexivity.
  assert (Hu : _src_type a <> lit "url") by (vm_compute; discriminate).
  assert (Hin : In [] toks) by (right; left; reflexivity).
  assert (Hb : (0 <= 0 <= 100)%Z) by lia.
  assert (HN : (Z.of_nat (len_set str_eqb toks) <= 10)%Z)
    by (apply Z.leb_le; reflexivity).
  destruct (@words_one_token_per_fragment example_world (lit "ab --") None
              (lit "text") a false Hi) as [Hw Hs].
  destruct (Hs Hu Hin) as (Hd & Ha & Hc).
  split; [exact Hi|]. split; [exact Hu|]. split; [exact Hin|].
  split; [exact Hb|]. split; [exact HN|]. split; [exact Hw|].
  split; [exact Hd|]. split; [exact Ha|]. exact (Hc 0%Z 100%Z 10%Z false Hb HN).
Defined.
